(** * RagTagDescriptor: the tag editor's synchronisation core (src/app.py)

    A shallow embedding of the functions of [app.py] that keep the Record
    Store (the JSON list of tag records) and the Index Store (the ChromaDB
    collection) in step, and the properties the specification states about
    them.

    Modelling decisions, each visible in the definitions below:
    - a Python [dict] read by string keys is a [gmap string string]: the
      values of a record are strings, as the form of the editor writes them
      (a file edited by hand to hold other JSON values is outside the
      model); a subscript [d['k']] on a missing key raises [KeyError],
      [d.get(k, '')] does not;
    - a Python [str] is a [string] that holds the UTF-8 bytes of its code
      points: searching, splitting at a newline, replacing and comparing
      act on the bytes as they do on the code points, while [len] and
      slices count code points; [f"{n}"] of an [int] is stdpp's decimal
      [pretty];
    - a Python [set] of ids is a [gset string];
    - code that can raise returns a [result]; code that talks to the
      outside world runs in the monad [M], which threads the [World] and
      lets an exception escape until a [try_except] catches it;
    - the builtins [hash], [str.lower] and [str.strip] are parameters of the
      development ([hash] is keyed by a per-process seed in CPython);
    - the ChromaDB collection is an external service: it is modelled by the
      four operations the program consumes, and every request may fail. *)

From Stdlib Require Import ZArith Lia Ascii String List.
From stdpp Require Import gmap strings list fin_maps pretty sorting.

(** ** Python values and exceptions *)

Abbreviation pydict := (gmap string string).

(** The newline character of the triple-quoted f-string in [format_entry]. *)
Definition nl : string := String (Ascii.ascii_of_nat 10) EmptyString.

Inductive exn : Type :=
| KeyError (key : string)
| IndexError
| ChromaError (msg : string).

(** [str(e)] as the [except] handlers print it. *)
Definition str_exn (e : exn) : string :=
  match e with
  | KeyError key => "'" +:+ key +:+ "'"
  | IndexError => "list index out of range"
  | ChromaError msg => msg
  end.

Inductive result (A : Type) : Type :=
| Ok (a : A)
| Raise (e : exn).
Arguments Ok {A} a.
Arguments Raise {A} e.

Global Instance result_ret : MRet result := λ A a, Ok a.
Global Instance result_bind : MBind result := λ A B f m,
  match m with
  | Ok a => f a
  | Raise e => Raise e
  end.

(** [d[k]] *)
Definition getitem (d : pydict) (k : string) : result string :=
  match d !! k with
  | Some v => Ok v
  | None => Raise (KeyError k)
  end.

(** [d.get(k, dflt)] *)
Definition dict_get (d : pydict) (k dflt : string) : string :=
  default dflt (d !! k).

(** [needle in hay] on strings: [needle] occurs at some position of [hay]. *)
Fixpoint contains (needle hay : string) : bool :=
  String.prefix needle hay ||
  match hay with
  | EmptyString => false
  | String _ hay' => contains needle hay'
  end.

(** ** The world the script runs in *)

(** A request sent to the ChromaDB client. *)
Inductive call : Type :=
| CallOpen
| CallGet (ids : option (list string))
| CallAdd (documents ids : list string)
| CallUpdate (ids documents : list string)
| CallDelete (ids : list string).

(** [json_file] is the content of tag_docs.json ([None] when the file does
    not exist); [entries] are the (id, document) pairs of the collection in
    insertion order; [calls] records every request issued so far; [faults]
    is the fate of the coming requests ([Some msg]: the request raises an
    exception with text [msg] and changes nothing; an exhausted list means
    no further failure); [shown] are the messages put on screen by
    [st.error]. *)
Record World : Type := mkWorld {
  json_file : option (list pydict);
  entries : list (string * string);
  calls : list call;
  faults : list (option string);
  shown : list string
}.

Definition M (A : Type) : Type := World → result A * World.

Global Instance M_ret : MRet M := λ A a w, (Ok a, w).
Global Instance M_bind : MBind M := λ A B f m w,
  match m w with
  | (Ok a, w') => f a w'
  | (Raise e, w') => (Raise e, w')
  end.

(** A pure, possibly raising, computation run inside [M]. *)
Definition lift {A : Type} (r : result A) : M A := λ w, (r, w).

(** [try: body  except Exception as e: handler e] *)
Definition try_except {A : Type} (body : M A) (handler : exn → M A) : M A :=
  λ w,
    match body w with
    | (Ok a, w') => (Ok a, w')
    | (Raise e, w') => handler e w'
    end.

(** [st.error(msg)] *)
Definition st_error (msg : string) : M unit := λ w,
  (Ok tt, mkWorld (json_file w) (entries w) (calls w) (faults w) (shown w ++ [msg])).

(** ** The Index Store client *)

(** The world once a request has been sent: the request is on record and
    its fate is consumed. *)
Definition sent (c : call) (w : World) : World :=
  mkWorld (json_file w) (entries w) (calls w ++ [c]) (tail (faults w)) (shown w).

Definition request (c : call) : M unit := λ w,
  match faults w with
  | Some msg :: _ => (Raise (ChromaError msg), sent c w)
  | _ => (Ok tt, sent c w)
  end.

Definition set_entries (es : list (string * string)) : M unit := λ w,
  (Ok tt, mkWorld (json_file w) es (calls w) (faults w) (shown w)).

Record GetResult : Type := mkGetResult {
  res_ids : list string;
  res_documents : list string
}.

Definition select (ids : option (list string)) (es : list (string * string))
  : list (string * string) :=
  match ids with
  | None => es
  | Some l => filter (λ e, e.1 ∈ l) es
  end.

(** Modelled from the spec: the ChromaDB client is an external library; the
    program consumes add(ids, documents), update(ids, documents),
    delete(ids) and get(ids?) -> {ids, documents}.  [get] without ids returns
    every entry, with ids the entries that carry one of them. *)
Definition db_get (ids : option (list string)) : M GetResult := λ w,
  match request (CallGet ids) w with
  | (Ok _, w') =>
      let es := select ids (entries w') in
      (Ok (mkGetResult es.*1 es.*2), w')
  | (Raise e, w') => (Raise e, w')
  end.

(** Modelled from the spec: add(ids, documents) of the external client
    creates one entry per new id, after the existing ones; an id already in
    the collection is left as it is. *)
Definition db_add (documents ids : list string) : M unit := λ w,
  match request (CallAdd documents ids) w with
  | (Ok _, w') =>
      set_entries
        (entries w' ++ filter (λ e, e.1 ∉ (entries w').*1) (zip ids documents)) w'
  | (Raise e, w') => (Raise e, w')
  end.

(** Modelled from the spec: update(ids, documents) of the external client
    replaces the document text of the entries that carry one of the ids and
    touches no other entry. *)
Definition db_update (ids documents : list string) : M unit := λ w,
  match request (CallUpdate ids documents) w with
  | (Ok _, w') =>
      set_entries
        ((λ e, (e.1, default e.2 (list_to_map (M:=gmap string string) (zip ids documents) !! e.1)))
           <$> entries w') w'
  | (Raise e, w') => (Raise e, w')
  end.

(** Modelled from the spec: delete(ids) of the external client removes the
    entries that carry one of the ids; an id that is not in the collection
    is skipped without an error. *)
Definition db_delete (ids : list string) : M unit := λ w,
  match request (CallDelete ids) w with
  | (Ok _, w') => set_entries (filter (λ e, e.1 ∉ ids) (entries w')) w'
  | (Raise e, w') => (Raise e, w')
  end.

(** [get_chroma_db()]: opens the persistent client and the collection. *)
Definition get_chroma_db : M unit := request CallOpen.

(** ** The application *)

Section App.

(** The builtin [hash] on [str], as it is in the running process. *)
Variable hash : string → Z.
(** The builtins [str.lower] and [str.strip]. *)
Variable lower : string → string.
Variable strip : string → string.

(** [format_entry(tag_dict)] *)
Definition format_entry (tag_dict : pydict) : result string :=
  tag ← getitem tag_dict "tag";
  description ← getitem tag_dict "description";
  mret ("Tag: " +:+ tag +:+ nl +:+
        "Description: " +:+ description +:+ nl +:+
        "Instruction: " +:+ dict_get tag_dict "merge_instruction" "" +:+ nl +:+
        "Category: " +:+ dict_get tag_dict "category" "" +:+ nl).

(** [get_tag_id(tag_name)]; Python's [%] with a positive modulus is the
    floor modulo, as is [Z.modulo]. *)
Definition get_tag_id (tag_name : string) : string :=
  "tag_" +:+ pretty (hash tag_name `mod` 10 ^ 8)%Z.

(** [sync_tag_to_chroma(tag_data, db)]; [db] is the collection of the
    world. *)
Definition sync_tag_to_chroma (tag_data : pydict) : M string :=
  tag ← lift (getitem tag_data "tag");
  let tag_id := get_tag_id tag in
  doc_str ← lift (format_entry tag_data);
  try_except
    (existing ← db_get (Some [tag_id]);
     if bool_decide (res_ids existing ≠ []) then
       db_update [tag_id] [doc_str];;
       tag ← lift (getitem tag_data "tag");
       mret ("Updated tag '" +:+ tag +:+ "' in ChromaDB")
     else
       db_add [doc_str] [tag_id];;
       tag ← lift (getitem tag_data "tag");
       mret ("Added tag '" +:+ tag +:+ "' to ChromaDB"))
    (λ e,
       tag ← lift (getitem tag_data "tag");
       mret ("Error syncing tag '" +:+ tag +:+ "': " +:+ str_exn e)).

(** [remove_tag_from_chroma(tag_name, db)] *)
Definition remove_tag_from_chroma (tag_name : string) : M string :=
  let tag_id := get_tag_id tag_name in
  try_except
    (db_delete [tag_id];;
     mret ("Removed tag '" +:+ tag_name +:+ "' from ChromaDB"))
    (λ e, mret ("Error removing tag '" +:+ tag_name +:+ "': " +:+ str_exn e)).

(** [get_chroma_status()]: the ids in the collection and the handle, or the
    empty set and [None]. *)
Definition get_chroma_status : M (gset string * bool) :=
  try_except
    (get_chroma_db;;
     all_items ← db_get None;
     mret (list_to_set (res_ids all_items), true))
    (λ e,
       st_error ("Error accessing ChromaDB: " +:+ str_exn e);;
       mret (∅, false)).

(** The loop of [check_sync_status], started from the dict built so far. *)
Fixpoint check_sync_status_from (sync_status : gmap string bool)
    (tags_data : list pydict) (chroma_ids : gset string)
  : result (gmap string bool) :=
  match tags_data with
  | [] => mret sync_status
  | tag :: rest =>
      name ← getitem tag "tag";
      let tag_id := get_tag_id name in
      name' ← getitem tag "tag";
      check_sync_status_from
        (<[name' := bool_decide (tag_id ∈ chroma_ids)]> sync_status)
        rest chroma_ids
  end.

(** [check_sync_status(tags_data, chroma_ids)] *)
Definition check_sync_status (tags_data : list pydict) (chroma_ids : gset string)
  : result (gmap string bool) :=
  check_sync_status_from ∅ tags_data chroma_ids.

(** [load_tags()] and [save_tags(data)] on tag_docs.json. *)
Definition load_tags : M (list pydict) := λ w,
  (Ok (default [] (json_file w)), w).

Definition save_tags (data : list pydict) : M unit := λ w,
  (Ok tt, mkWorld (Some data) (entries w) (calls w) (faults w) (shown w)).

(** [[t for t in tags_data if t["tag"] != current_tag]] *)
Fixpoint without_tag (tags_data : list pydict) (current_tag : string)
  : result (list pydict) :=
  match tags_data with
  | [] => mret []
  | t :: rest =>
      name ← getitem t "tag";
      kept ← without_tag rest current_tag;
      mret (if bool_decide (name ≠ current_tag) then t :: kept else kept)
  end.

(** The branch of the form handler that saves (lines 159-170): the dict
    literal [new_entry], the rebuilt list and the write to the file.  It
    returns the new value of the variable [tags_data]. *)
Definition new_entry (current_tag description merge_instruction category : string)
  : pydict :=
  <["category" := strip category]>
    (<["merge_instruction" := strip merge_instruction]>
       (<["description" := strip description]>
          (<["tag" := current_tag]> ∅))).

Definition save_handler (submitted : bool)
    (current_tag description merge_instruction category : string)
    (tags_data : list pydict) : M (list pydict) :=
  if submitted && bool_decide (current_tag ≠ "") then
    let entry := new_entry current_tag description merge_instruction category in
    tags_data ← lift (without_tag tags_data current_tag);
    let tags_data := tags_data ++ [entry] in
    save_tags tags_data;;
    mret tags_data
  else mret tags_data.

(** [get_all_chroma_documents()] *)
Definition get_all_chroma_documents : M (option GetResult) :=
  try_except
    (get_chroma_db;;
     all_data ← db_get None;
     mret (Some all_data))
    (λ e,
       st_error ("Error getting ChromaDB documents: " +:+ str_exn e);;
       mret None).

(** [{get_tag_id(tag['tag']) for tag in tags_data}] *)
Fixpoint expected_ids_of (tags_data : list pydict) : result (gset string) :=
  match tags_data with
  | [] => mret ∅
  | tag :: rest =>
      name ← getitem tag "tag";
      ids ← expected_ids_of rest;
      mret ({[get_tag_id name]} ∪ ids)
  end.

(** [clean_orphaned_chroma_entries(tags_data)]; [db] is the truth value of
    the module-level handle, [None] when the collection could not be opened
    at start-up. *)
Definition clean_orphaned_chroma_entries (db : bool) (tags_data : list pydict)
  : M string :=
  if negb db then mret "ChromaDB not available"
  else
    expected_ids ← lift (expected_ids_of tags_data);
    all_data ← db_get None;
    let existing_ids : gset string := list_to_set (res_ids all_data) in
    let orphaned_ids := existing_ids ∖ expected_ids in
    if bool_decide (orphaned_ids ≠ ∅) then
      try_except
        (db_delete (elements orphaned_ids);;
         mret ("Removed " +:+ pretty (size orphaned_ids) +:+
               " orphaned entries from ChromaDB"))
        (λ e, mret ("Error removing orphaned entries: " +:+ str_exn e))
    else mret "No orphaned entries found".

(** One element of the list [search_tag_in_chroma] returns. *)
Record Match : Type := mkMatch {
  match_id : string;
  match_document : string;
  exact_match : bool
}.

(** The loop of [search_tag_in_chroma] over [enumerate(all_data['documents'])],
    from index [i] on, with the [matches] found so far. *)
Fixpoint search_from (tag_name : string) (ids : list string) (i : nat)
    (documents : list string) (matches : list Match) : result (list Match) :=
  match documents with
  | [] => mret matches
  | doc :: rest =>
      if contains (lower tag_name) (lower doc) then
        match ids !! i with
        | Some id =>
            search_from tag_name ids (S i) rest
              (matches ++ [mkMatch id doc (contains ("Tag: " +:+ tag_name) doc)])
        | None => Raise IndexError
        end
      else search_from tag_name ids (S i) rest matches
  end.

(** [search_tag_in_chroma(tag_name)] *)
Definition search_tag_in_chroma (tag_name : string) : M (list Match) :=
  try_except
    (all_data ← get_all_chroma_documents;
     match all_data with
     | None => mret []
     | Some all_data =>
         lift (search_from tag_name (res_ids all_data) 0
                 (res_documents all_data) [])
     end)
    (λ e,
       st_error ("Error searching in ChromaDB: " +:+ str_exn e);;
       mret []).

End App.

(** ** A run of the script as a process *)

(** CPython keys the hash of a [str] with a seed drawn when the process
    starts (or pinned through PYTHONHASHSEED).  A process is the seed it runs
    with together with the state it has built up. *)
Record Process (Seed : Type) : Type := mkProcess {
  hash_seed : Seed;
  world : World;
  tags_data_of : list pydict
}.
Arguments hash_seed {Seed} p.
Arguments world {Seed} p.
Arguments tags_data_of {Seed} p.

(** [get_tag_id(tag_name)] evaluated in the process [p]. *)
Definition get_tag_id_in {Seed : Type} (keyed_hash : Seed → string → Z)
    (p : Process Seed) (tag_name : string) : string :=
  get_tag_id (keyed_hash (hash_seed p)) tag_name.

(** ** The builtins on ASCII text *)

(** Instances of the three parameters on which the model can be run:
    [str.lower] and [str.strip] as they act on ASCII text, and a keyed
    polynomial hash that takes both signs. *)
Definition lower_char (c : ascii) : ascii :=
  let n := nat_of_ascii c in
  if (65 <=? n)%nat && (n <=? 90)%nat then ascii_of_nat (n + 32) else c.

Fixpoint ascii_lower (s : string) : string :=
  match s with
  | EmptyString => EmptyString
  | String c s' => String (lower_char c) (ascii_lower s')
  end.

Definition is_space (c : ascii) : bool :=
  let n := nat_of_ascii c in
  ((9 <=? n)%nat && (n <=? 13)%nat) || ((28 <=? n)%nat && (n <=? 32)%nat).

Fixpoint lstrip (s : string) : string :=
  match s with
  | EmptyString => EmptyString
  | String c s' => if is_space c then lstrip s' else s
  end.

Definition ascii_strip (s : string) : string :=
  String.rev (lstrip (String.rev (lstrip s))).

Fixpoint poly_hash (acc : Z) (s : string) : Z :=
  match s with
  | EmptyString => acc
  | String c s' => poly_hash (31 * acc + Z.of_nat (nat_of_ascii c))%Z s'
  end.

Definition keyed_hash (seed : Z) (s : string) : Z :=
  (poly_hash seed s - 2 ^ 20)%Z.

(** Sample data: a world with an empty collection and no file, and a
    record with a tag and a description. *)
Definition empty_world : World := mkWorld None [] [] [] [].

Definition record_of (tag description : string) : pydict :=
  <["description" := description]> (<["tag" := tag]> ∅).

(** ** Notions the specification speaks in *)

(** The ids present in the Index Store. *)
Definition store_ids (w : World) : gset string := list_to_set (entries w).*1.

(** The document texts stored under [id]. *)
Definition documents_of (id : string) (w : World) : list string :=
  (filter (λ e, e.1 = id) (entries w)).*2.

(** The fate of the [n]-th coming request: [Some msg] when it is going to
    fail with text [msg]. *)
Definition fate (n : nat) (w : World) : option string :=
  default None (faults w !! n).

(** A tag record carries at least the key [tag]; one that can be formatted
    also carries [description]. *)
Definition has_tag (d : pydict) : Prop := is_Some (d !! "tag").
Definition is_tag_record (d : pydict) : Prop :=
  is_Some (d !! "tag") ∧ is_Some (d !! "description").

(** The tag of a record, [None] when the key is missing. *)
Definition tag_of (d : pydict) : option string := d !! "tag".

(** [needle] occurs in [hay]: some text, then [needle], then some text. *)
Definition occurs (needle hay : string) : Prop :=
  ∃ before after : string, hay = before +:+ needle +:+ after.

(** The document opens with the tag header of [tag_name], the line
    [format_entry] writes first for a record with that tag. *)
Definition has_tag_header (tag_name doc : string) : Prop :=
  ∃ rest : string, doc = "Tag: " +:+ tag_name +:+ nl +:+ rest.

(** The matches a scan of the entries [es] for [tag_name] yields: one per
    entry whose lowercased document contains the lowercased query. *)
Definition found (lower : string → string) (tag_name : string)
    (es : list (string * string)) : list Match :=
  (λ e, mkMatch e.1 e.2 (contains ("Tag: " +:+ tag_name) e.2))
    <$> filter (λ e, contains (lower tag_name) (lower e.2) = true) es.

(** The entries once the document text stored under [id] is replaced. *)
Definition replace_document (id doc : string) (es : list (string * string))
  : list (string * string) :=
  (λ e, if decide (e.1 = id) then (e.1, doc) else e) <$> es.

(** The text the specification describes: every field read with the empty
    string as its default. *)
Definition entry_text (d : pydict) : string :=
  "Tag: " +:+ dict_get d "tag" "" +:+ nl +:+
  "Description: " +:+ dict_get d "description" "" +:+ nl +:+
  "Instruction: " +:+ dict_get d "merge_instruction" "" +:+ nl +:+
  "Category: " +:+ dict_get d "category" "" +:+ nl.

(** ** The rest of the script *)

(** What a handler puts on screen besides errors, with the kind of box it
    uses ([st.success], [st.warning], [st.info], and [st.error] where the
    handler reports it as its outcome). *)
Inductive notice : Type :=
| Success (msg : string)
| Warning (msg : string)
| Info (msg : string)
| Failure (msg : string).

(** How a handler leaves the script run: the new value of [tags_data], what
    it put on screen and whether it called [st.rerun()].  Modelled from the
    library: [st.rerun()] ends the run through a control-flow exception that
    [except Exception] does not catch, so nothing of the handler runs after
    it. *)
Record Outcome : Type := mkOutcome {
  new_tags_data : list pydict;
  said : option notice;
  reran : bool
}.

(** [str.startswith] *)
Definition startswith (s prefix : string) : bool := String.prefix prefix s.

(** [s.split('\n')[0]]: the text before the first newline. *)
Fixpoint first_line (s : string) : string :=
  match s with
  | EmptyString => EmptyString
  | String c s' =>
      if Ascii.eqb c (Ascii.ascii_of_nat 10) then EmptyString
      else String c (first_line s')
  end.

(** [s.replace(old, new)] for a non-empty [old]: the occurrences are taken
    from the left and do not overlap; [skip] counts the characters of an
    occurrence still to pass over. *)
Fixpoint replace_from (old new : string) (skip : nat) (s : string) : string :=
  match s with
  | EmptyString => EmptyString
  | String c s' =>
      match skip with
      | S k => replace_from old new k s'
      | O =>
          if String.prefix old s
          then new +:+ replace_from old new (String.length old - 1) s'
          else String c (replace_from old new 0 s')
      end
  end.

(** [s.replace("", new)] puts [new] before every character and at the end. *)
Fixpoint intersperse_new (new s : string) : string :=
  match s with
  | EmptyString => new
  | String c s' => new +:+ String c (intersperse_new new s')
  end.

Definition str_replace (s old new : string) : string :=
  match old with
  | EmptyString => intersperse_new new s
  | _ => replace_from old new 0 s
  end.

(** In UTF-8 a byte of the form 10xxxxxx continues a code point; every
    other byte starts one. *)
Definition is_continuation (c : ascii) : bool :=
  let n := nat_of_ascii c in (128 <=? n)%nat && (n <? 192)%nat.

(** [len(s)]: the number of code points of [s]. *)
Fixpoint len (s : string) : nat :=
  match s with
  | EmptyString => O
  | String c s' => if is_continuation c then len s' else S (len s')
  end.

(** [s[:n]]: the first [n] code points of [s], each with all its bytes. *)
Fixpoint str_take (n : nat) (s : string) : string :=
  match s with
  | EmptyString => EmptyString
  | String c s' =>
      if is_continuation c then String c (str_take n s')
      else match n with
           | O => EmptyString
           | S k => String c (str_take k s')
           end
  end.

(** [doc[:n] + "..." if len(doc) > n else doc] (lines 268 and 386) *)
Definition preview (n : nat) (doc : string) : string :=
  if (n <? len doc)%nat then str_take n doc +:+ "..." else doc.

(** The order of [sorted] on strings. *)
Definition str_le (a b : string) : Prop := String.leb a b = true.

Global Instance str_le_dec (a b : string) : Decision (str_le a b) :=
  decide (String.leb a b = true).

Section Script.

Variable hash : string → Z.
Variable lower : string → string.
Variable strip : string → string.

(** [[tag for tag in tags_data if search_query.lower() in tag["tag"].lower()]]
    (line 125) *)
Fixpoint filtered_tags (tags_data : list pydict) (search_query : string)
  : result (list pydict) :=
  match tags_data with
  | [] => mret []
  | tag :: rest =>
      name ← getitem tag "tag";
      kept ← filtered_tags rest search_query;
      mret (if contains (lower search_query) (lower name)
            then tag :: kept else kept)
  end.

(** [[t["tag"] for t in filtered_tags]] (line 126) *)
Fixpoint existing_tag_names (filtered : list pydict) : result (list string) :=
  match filtered with
  | [] => mret []
  | t :: rest =>
      name ← getitem t "tag";
      names ← existing_tag_names rest;
      mret (name :: names)
  end.

(** The dict literal of lines 134, 137 and 140. *)
Definition blank_record (tag : string) : pydict :=
  <["category" := ""]>
    (<["merge_instruction" := ""]>
       (<["description" := ""]> (<["tag" := tag]> ∅))).

(** [next((t for t in tags_data if t["tag"] == selected_tag), dflt)]: the
    generator is consumed up to its first element only. *)
Fixpoint first_with_tag (tags_data : list pydict) (selected_tag : string)
    (dflt : pydict) : result pydict :=
  match tags_data with
  | [] => mret dflt
  | t :: rest =>
      name ← getitem t "tag";
      if bool_decide (name = selected_tag) then mret t
      else first_with_tag rest selected_tag dflt
  end.

(** Lines 132-140: the current tag and the record behind the form. *)
Definition choose_current (new_tag_input selected_tag : string)
    (tags_data : list pydict) : result (string * pydict) :=
  if bool_decide (strip new_tag_input ≠ "") then
    let current_tag := strip new_tag_input in
    mret (current_tag, blank_record current_tag)
  else if bool_decide (selected_tag ≠ "") then
    tag_data ← first_with_tag tags_data selected_tag (blank_record "");
    mret (selected_tag, tag_data)
  else mret ("", blank_record "").

(** Lines 159-182: the save branch with its push to the Index Store. *)
Definition save_and_sync (db submitted : bool)
    (current_tag description merge_instruction category : string)
    (tags_data : list pydict) : M Outcome :=
  if submitted && bool_decide (current_tag ≠ "") then
    let entry := new_entry strip current_tag description merge_instruction category in
    tags_data ←
      save_handler strip submitted current_tag description merge_instruction
        category tags_data;
    if db then
      try_except
        (result ← sync_tag_to_chroma hash entry;
         mret (mkOutcome tags_data (Some (Success ("✅ " +:+ result))) true))
        (λ e,
           mret (mkOutcome tags_data
                   (Some (Failure ("❌ Failed to sync with ChromaDB: "
                                   +:+ str_exn e))) false))
    else
      mret (mkOutcome tags_data
              (Some (Warning "⚠️ Saved to JSON, but ChromaDB is not available"))
              false)
  else mret (mkOutcome tags_data None false).

(** Lines 185-200: the delete branch. *)
Definition delete_handler (db delete_clicked : bool)
    (current_tag selected_tag : string) (tags_data : list pydict) : M Outcome :=
  if delete_clicked && bool_decide (current_tag ≠ "")
     && bool_decide (selected_tag ≠ "") then
    tags_data ← lift (without_tag tags_data current_tag);
    save_tags tags_data;;
    if db then
      try_except
        (result ← remove_tag_from_chroma hash current_tag;
         mret (mkOutcome tags_data
                 (Some (Success ("✅ Deleted '" +:+ current_tag +:+
                                 "' from both JSON and ChromaDB"))) true))
        (λ e,
           mret (mkOutcome tags_data
                   (Some (Failure
                            ("❌ Deleted from JSON, but failed to remove from ChromaDB: "
                             +:+ str_exn e))) false))
    else
      mret (mkOutcome tags_data
              (Some (Warning ("⚠️ Deleted '" +:+ current_tag +:+
                              "' from JSON, but ChromaDB is not available")))
              false)
  else mret (mkOutcome tags_data None false).

(** Lines 219-225: the loop of "Sync All Tags".  The progress bar and the
    pause between two records act on nothing the model holds and are left
    out. *)
Fixpoint sync_all_loop (tags_data : list pydict) : M unit :=
  match tags_data with
  | [] => mret tt
  | tag :: rest =>
      try_except
        (sync_tag_to_chroma hash tag;; mret tt)
        (λ e,
           name ← lift (getitem tag "tag");
           st_error ("Failed to sync " +:+ name +:+ ": " +:+ str_exn e));;
      sync_all_loop rest
  end.

(** Lines 217-227: the body of the button "Sync All Tags". *)
Definition sync_all (tags_data : list pydict) : M notice :=
  sync_all_loop tags_data;;
  mret (Success "✅ All tags synced!").

(** The generator of line 243:
    [tag["category"] for tag in tags_data if tag.get("category")], on
    records whose values are strings: a category is kept when it is present
    and not the empty string. *)
Fixpoint category_values (tags_data : list pydict) : result (list string) :=
  match tags_data with
  | [] => mret []
  | tag :: rest =>
      if bool_decide (default "" (tag !! "category") ≠ "") then
        c ← getitem tag "category";
        cs ← category_values rest;
        mret (c :: cs)
      else category_values rest
  end.

(** [categories = sorted(set(...))] (line 243) *)
Definition categories (tags_data : list pydict) : result (list string) :=
  cs ← category_values tags_data;
  mret (merge_sort str_le (elements (list_to_set cs : gset string))).

(** Lines 258-268: the documents of the collection sorted into the tags
    read off their header and previews of the other documents. *)
Fixpoint analyse (documents : list string) (tag_docs other_docs : list string)
  : list string * list string :=
  match documents with
  | [] => (tag_docs, other_docs)
  | doc :: rest =>
      if startswith doc "Tag: " then
        let tag_name := strip (str_replace (first_line doc) "Tag: " "") in
        analyse rest (tag_docs ++ [tag_name]) other_docs
      else analyse rest tag_docs (other_docs ++ [preview 50 doc])
  end.

(** [duplicates = len(tag_docs) - len(unique_tags)] (lines 273-277) *)
Definition duplicates (tag_docs : list string) : Z :=
  Z.of_nat (length tag_docs)
  - Z.of_nat (size (list_to_set tag_docs : gset string)).

End Script.

(** ** The page scraper (src/Untitled-1.py) *)

(** [[line.strip() for line in f if line.strip()]] *)
Definition read_urls (strip : string → string) (lines : list string)
  : list string :=
  strip <$> filter (λ line, strip line ≠ "") lines.

(** [f"pages_texts/page_{i}.txt"] *)
Definition page_file (i : nat) : string :=
  "pages_texts/page_" +:+ pretty i +:+ ".txt".

(** The main loop from page number [i] on; [files] maps the names of the
    files written to their content.  [get_page_text] drives a browser and
    is a parameter: [None] stands for an exception, which nothing catches
    and which ends the script ([false]). *)
Fixpoint scrape_from (get_page_text : string → option string) (i : nat)
    (urls : list string) (files : gmap string string)
  : gmap string string * bool :=
  match urls with
  | [] => (files, true)
  | url :: rest =>
      match get_page_text url with
      | Some text =>
          scrape_from get_page_text (S i) rest (<[page_file i := text]> files)
      | None => (files, false)
      end
  end.

(** [for i, url in enumerate(urls, 1): ...] *)
Definition scrape (get_page_text : string → option string)
    (urls : list string) (files : gmap string string)
  : gmap string string * bool :=
  scrape_from get_page_text 1 urls files.

(** ** Notions for the further properties *)

(** Every coming request is served. *)
Definition always_served (w : World) : Prop := ∀ n, fate n w = None.

(** The entries after an upsert of [doc] under [id]. *)
Definition upserted (es : list (string * string)) (e : string * string)
  : list (string * string) :=
  if decide (e.1 ∈ es.*1) then replace_document e.1 e.2 es else es ++ [e].

(** The id and the document under which a record is pushed to the Index
    Store. *)
Definition upsert_of (hash : string → Z) (d : pydict) : string * string :=
  (get_tag_id hash (default "" (tag_of d)), entry_text d).

(** A record whose tag survives the trip through a document: a single
    line, free of the marker "Tag: " and of surrounding blanks. *)
Definition plain_tag (strip : string → string) (d : pydict) : Prop :=
  ∃ name description : string,
    d !! "tag" = Some name ∧ d !! "description" = Some description ∧
    ¬ occurs nl name ∧ ¬ occurs "Tag: " name ∧ strip name = name.

(** The ids expected from the Record Store. *)
Definition expected_ids (hash : string → Z) (tags_data : list pydict)
  : gset string :=
  list_to_set (get_tag_id hash <$> omap tag_of tags_data).

(** * Properties *)

(** Unfolds the monad of [M] down to the matches on its results. *)
Ltac run_monad :=
  unfold mbind, M_bind, mret, M_ret, lift, try_except; cbv beta iota zeta.

(** ** Identifier derivation *)

Section Identifier.

Variable hash : string → Z.

Lemma residue_range (tag_name : string) :
  (0 ≤ hash tag_name `mod` 10 ^ 8 < 10 ^ 8)%Z.
Proof. apply Z.mod_pos_bound. lia. Qed.

(** Distinct residues below a bound are at most as many as the bound. *)
Lemma NoDup_below (N : Z) (l : list Z) :
  (0 ≤ N)%Z → NoDup l → Forall (λ n, 0 ≤ n < N)%Z l →
  (Z.of_nat (length l) ≤ N)%Z.
Proof.
  intros Hpos Hnd Hall.
  assert (Hnat : NoDup (Z.to_nat <$> l)).
  { apply NoDup_fmap_2_strong; [|done].
    intros x y Hx Hy Heq.
    rewrite Forall_forall in Hall.
    pose proof (Hall x Hx) as Bx. pose proof (Hall y Hy) as By.
    cbv beta in Bx, By. lia. }
  assert (Hin : ∀ k, k ∈ Z.to_nat <$> l → k ∈ seq 0 (Z.to_nat N)).
  { intros k (n & -> & Hn)%list_elem_of_fmap.
    rewrite Forall_forall in Hall. pose proof (Hall n Hn) as Bn.
    cbv beta in Bn. apply elem_of_seq. lia. }
  pose proof (submseteq_length _ _ (NoDup_submseteq _ _ Hnat Hin)) as Hlen.
  rewrite length_fmap, length_seq in Hlen. lia.
Qed.

(** C10: every id is "tag_" followed by the decimal text of an integer of
    the range 0 .. 10^8 - 1, also when the hash is negative, so that tags
    with pairwise distinct ids are at most 10^8. *)
Theorem get_tag_id_range :
  (∀ tag_name : string,
     ∃ n : Z, (0 ≤ n < 10 ^ 8)%Z ∧ get_tag_id hash tag_name = "tag_" +:+ pretty n) ∧
  (∀ tags : list string,
     NoDup (get_tag_id hash <$> tags) → (Z.of_nat (length tags) ≤ 10 ^ 8)%Z).
Proof.
  split.
  - intros tag_name. exists (hash tag_name `mod` 10 ^ 8)%Z.
    split; [apply residue_range | reflexivity].
  - intros tags Hnd.
    change (get_tag_id hash) with
      ((λ n : Z, "tag_" +:+ pretty n) ∘ (λ t, hash t `mod` 10 ^ 8)%Z) in Hnd.
    rewrite list_fmap_compose in Hnd. apply NoDup_fmap_1 in Hnd.
    rewrite <- (length_fmap (λ t, hash t `mod` 10 ^ 8)%Z).
    apply NoDup_below; [lia|done|].
    apply Forall_fmap, Forall_forall. intros t _. apply residue_range.
Qed.

End Identifier.

(** The id shows the residue of the hash and nothing else: two ids are the
    same text exactly when the two residues modulo 10^8 are the same
    number. *)
Lemma get_tag_id_residue (hash1 hash2 : string → Z) (tag1 tag2 : string) :
  get_tag_id hash1 tag1 = get_tag_id hash2 tag2 ↔
  (hash1 tag1 `mod` 10 ^ 8 = hash2 tag2 `mod` 10 ^ 8)%Z.
Proof.
  unfold get_tag_id. split.
  - intros Heq. apply (String.app_inj "tag_") in Heq.
    by apply pretty_Z_inj in Heq.
  - by intros ->.
Qed.

(** C4: the derivation does not depend on the content of the tag alone.
    [get_tag_id] reads neither the stores nor the list of records, and
    within one process it is a function of the text; but across processes
    the ids of one text agree exactly when the hashes of the two processes
    agree modulo 10^8, and [hash] is keyed by the seed of the process, which
    the script does not pin.  With the keyed hash of the model, two
    processes that differ in their seed only derive two ids for "foo", so
    the entry pushed to the persistent collection by one run is not found
    under the id of the next. *)
Theorem get_tag_id_follows_hash_seed :
  (∀ (Seed : Type) (keyed : Seed → string → Z) (p1 p2 : Process Seed)
     (tag_name : string),
     get_tag_id_in keyed p1 tag_name = get_tag_id_in keyed p2 tag_name ↔
     (keyed (hash_seed p1) tag_name `mod` 10 ^ 8
      = keyed (hash_seed p2) tag_name `mod` 10 ^ 8)%Z) ∧
  get_tag_id_in keyed_hash (mkProcess Z 0%Z empty_world []) "foo"
    ≠ get_tag_id_in keyed_hash (mkProcess Z 1%Z empty_world []) "foo" ∧
  ¬ (∀ (p1 p2 : Process Z) (tag_name : string),
       get_tag_id_in keyed_hash p1 tag_name = get_tag_id_in keyed_hash p2 tag_name).
Proof.
  assert (Hfoo : get_tag_id_in keyed_hash (mkProcess Z 0%Z empty_world []) "foo"
                 ≠ get_tag_id_in keyed_hash (mkProcess Z 1%Z empty_world []) "foo").
  { unfold get_tag_id_in. cbn [hash_seed]. rewrite get_tag_id_residue.
    vm_compute. discriminate. }
  split; [|split].
  - intros Seed keyed p1 p2 tag_name. apply get_tag_id_residue.
  - exact Hfoo.
  - intros Hsame. apply Hfoo, Hsame.
Qed.

(** ** Document formatting *)

Lemma getitem_Some (d : pydict) (k v : string) :
  d !! k = Some v → getitem d k = Ok v.
Proof. intros H. unfold getitem. by rewrite H. Qed.

Lemma getitem_None (d : pydict) (k : string) :
  d !! k = None → getitem d k = Raise (KeyError k).
Proof. intros H. unfold getitem. by rewrite H. Qed.

Lemma format_entry_tag_record (d : pydict) :
  is_tag_record d → format_entry d = Ok (entry_text d).
Proof.
  intros [[t Ht] [ds Hds]]. unfold format_entry, entry_text, dict_get.
  rewrite (getitem_Some _ _ _ Ht). cbn.
  rewrite (getitem_Some _ _ _ Hds). cbn.
  by rewrite Ht, Hds.
Qed.

(** C8, as the specification states it, fails: a record without a
    description (or without a tag) is not rendered with an empty field,
    formatting it raises [KeyError]. *)
Lemma format_entry_missing_field_raises :
  format_entry (<["tag" := "foo"]> ∅) = Raise (KeyError "description") ∧
  format_entry (<["description" := "d"]> ∅) = Raise (KeyError "tag") ∧
  ¬ (∀ tag_dict : pydict, format_entry tag_dict = Ok (entry_text tag_dict)).
Proof.
  split; [reflexivity|]. split; [reflexivity|].
  intros H. specialize (H (<["tag" := "foo"]> ∅)). discriminate H.
Qed.

(** C8, amended: only the optional fields default.  A record that carries
    [tag] and [description] is formatted without an exception, a missing
    [merge_instruction] or [category] being rendered as the empty string;
    a record without [tag], or with [tag] but without [description], makes
    [format_entry] raise [KeyError] on that key. *)
Theorem format_entry_optional_fields_default (tag_dict : pydict) :
  (∀ tag description : string,
     tag_dict !! "tag" = Some tag →
     tag_dict !! "description" = Some description →
     format_entry tag_dict =
       Ok ("Tag: " +:+ tag +:+ nl +:+
           "Description: " +:+ description +:+ nl +:+
           "Instruction: " +:+ default "" (tag_dict !! "merge_instruction") +:+ nl +:+
           "Category: " +:+ default "" (tag_dict !! "category") +:+ nl)) ∧
  (tag_dict !! "tag" = None → format_entry tag_dict = Raise (KeyError "tag")) ∧
  (is_Some (tag_dict !! "tag") → tag_dict !! "description" = None →
     format_entry tag_dict = Raise (KeyError "description")).
Proof.
  unfold format_entry. repeat split.
  - intros tag description Ht Hd.
    rewrite (getitem_Some _ _ _ Ht). cbn.
    rewrite (getitem_Some _ _ _ Hd). reflexivity.
  - intros Ht. by rewrite (getitem_None _ _ Ht).
  - intros [t Ht] Hd. rewrite (getitem_Some _ _ _ Ht). cbn.
    by rewrite (getitem_None _ _ Hd).
Qed.

Lemma format_entry_optional_fields_default_witness :
  format_entry (<["description" := "d"]> (<["tag" := "foo"]> ∅)) =
    Ok ("Tag: foo" +:+ nl +:+ "Description: d" +:+ nl +:+
        "Instruction: " +:+ nl +:+ "Category: " +:+ nl).
Proof.
  exact (proj1 (format_entry_optional_fields_default
                  (<["description" := "d"]> (<["tag" := "foo"]> ∅)))
           "foo" "d" eq_refl eq_refl).
Defined.

(** ** Sync status *)

Section SyncStatus.

Variable hash : string → Z.

Lemma check_sync_status_from_spec (chroma_ids : gset string)
    (tags_data : list pydict) (sync_status : gmap string bool) :
  Forall has_tag tags_data →
  ∃ m : gmap string bool,
    check_sync_status_from hash sync_status tags_data chroma_ids = Ok m ∧
    ∀ name : string,
      m !! name =
        if decide (name ∈ omap tag_of tags_data)
        then Some (bool_decide (get_tag_id hash name ∈ chroma_ids))
        else sync_status !! name.
Proof.
  revert sync_status.
  induction tags_data as [|tag rest IH]; intros sync_status Hall.
  - exists sync_status. split; [reflexivity|]. intros name.
    cbn. case_decide as Hin; [by apply elem_of_nil in Hin | done].
  - apply Forall_cons_1 in Hall as [[t Ht] Hrest].
    cbn [check_sync_status_from].
    rewrite (getitem_Some _ _ _ Ht). cbn.
    destruct (IH (<[t := bool_decide (get_tag_id hash t ∈ chroma_ids)]> sync_status)
                Hrest) as (m & Hm & Hlook).
    exists m. split; [exact Hm|]. intros name. rewrite Hlook.
    cbn [omap list_omap]. change (tag_of tag) with (tag !! "tag"). rewrite Ht.
    destruct (decide (name ∈ omap tag_of rest)) as [Hin|Hnin].
    + rewrite decide_True; [done | by apply list_elem_of_further].
    + destruct (decide (name = t)) as [->|Hne].
      * rewrite lookup_insert_eq.
        rewrite decide_True; [done | apply list_elem_of_here].
      * rewrite lookup_insert_ne by done.
        rewrite decide_False; [done|].
        intros [?|?]%elem_of_cons; done.
Qed.

(** C2: on a collection of tag records [check_sync_status] returns (it does
    not raise) a mapping whose keys are exactly the tags of the collection,
    each bound once, to [true] if and only if the id derived from the tag is
    in the given set.  It is a function of its two arguments alone: it runs
    outside [M] and so neither reads nor changes a store. *)
Theorem check_sync_status_total_correct
    (tags_data : list pydict) (chroma_ids : gset string) :
  Forall has_tag tags_data →
  ∃ sync_status : gmap string bool,
    check_sync_status hash tags_data chroma_ids = Ok sync_status ∧
    dom sync_status = list_to_set (omap tag_of tags_data) ∧
    (∀ (tag : pydict) (name : string),
       tag ∈ tags_data → tag !! "tag" = Some name →
       ∃ b : bool,
         sync_status !! name = Some b ∧
         (b = true ↔ get_tag_id hash name ∈ chroma_ids)) ∧
    (∀ (name : string) (b : bool),
       sync_status !! name = Some b →
       (∃ tag, tag ∈ tags_data ∧ tag !! "tag" = Some name) ∧
       (b = true ↔ get_tag_id hash name ∈ chroma_ids)).
Proof.
  intros Hall.
  destruct (check_sync_status_from_spec chroma_ids tags_data ∅ Hall)
    as (m & Hm & Hlook).
  exists m. split; [exact Hm|].
  assert (Hin : ∀ tag name, tag ∈ tags_data → tag !! "tag" = Some name →
                            name ∈ omap tag_of tags_data).
  { intros tag name Htag Hname. apply list_elem_of_omap. by exists tag. }
  split; [|split].
  - apply set_eq. intros name.
    rewrite elem_of_dom, elem_of_list_to_set, Hlook.
    case_decide as Hd.
    + split; [done | by eexists].
    + split; [|done]. rewrite lookup_empty. by intros [? ?].
  - intros tag name Htag Hname.
    exists (bool_decide (get_tag_id hash name ∈ chroma_ids)). split.
    + rewrite Hlook, decide_True; [done | by eapply Hin].
    + by rewrite bool_decide_eq_true.
  - intros name b Hb. rewrite Hlook in Hb.
    case_decide as Hd; [|by rewrite lookup_empty in Hb].
    injection Hb as <-. split; [|by rewrite bool_decide_eq_true].
    apply list_elem_of_omap in Hd as (tag & Htag & Hname). by exists tag.
Qed.

End SyncStatus.

Lemma check_sync_status_total_correct_witness :
  Forall has_tag [<["tag" := "a"]> ∅; <["tag" := "b"]> ∅] ∧
  ∃ sync_status : gmap string bool,
    check_sync_status (keyed_hash 0) [<["tag" := "a"]> ∅; <["tag" := "b"]> ∅]
      {["tag_98951521"]} = Ok sync_status ∧
    sync_status !! "a" = Some true ∧ sync_status !! "b" = Some false.
Proof.
  assert (H : Forall has_tag [<["tag" := "a"]> ∅; <["tag" := "b"]> ∅]).
  { repeat constructor; by eexists. }
  split; [exact H|].
  destruct (check_sync_status_total_correct (keyed_hash 0) _ {["tag_98951521"]} H)
    as (m & Hm & _ & _ & _).
  exists m. split; [exact Hm|].
  vm_compute in Hm. injection Hm as <-. split; reflexivity.
Defined.

(** ** Record Store upsert *)

Section RecordStore.

Variable strip : string → string.

Lemma without_tag_filter (current_tag : string) (tags_data : list pydict) :
  Forall has_tag tags_data →
  without_tag tags_data current_tag =
    Ok (filter (λ d, tag_of d ≠ Some current_tag) tags_data).
Proof.
  induction tags_data as [|t rest IH]; intros Hall; [reflexivity|].
  apply Forall_cons_1 in Hall as [[name Hname] Hrest].
  cbn [without_tag]. rewrite (getitem_Some _ _ _ Hname), (IH Hrest). cbn.
  f_equal. change (tag_of t) with (t !! "tag"). rewrite Hname.
  destruct (decide (name = current_tag)) as [->|Hne].
  - rewrite bool_decide_eq_false_2 by (intros H; by apply H).
    rewrite decide_False by (intros H; by apply H). done.
  - rewrite bool_decide_eq_true_2 by done.
    rewrite decide_True by congruence. done.
Qed.

Lemma filter_excluded (current_tag : string) (l : list pydict) :
  filter (λ d, tag_of d = Some current_tag)
    (filter (λ d, tag_of d ≠ Some current_tag) l) = [].
Proof.
  induction l as [|d l IH]; [reflexivity|].
  rewrite (filter_cons _ d l). case_decide as Hd; [|exact IH].
  by rewrite filter_cons_False.
Qed.

(** A missing file reads as the empty list, and what was saved is what is
    loaded next. *)
Lemma load_tags_missing_file (w : World) :
  json_file w = None → load_tags w = (Ok [], w).
Proof. intros H. unfold load_tags. by rewrite H. Qed.

Lemma load_tags_after_save (data : list pydict) (w : World) :
  (load_tags (save_tags data w).2).1 = Ok data.
Proof. reflexivity. Qed.

(** C9: saving a record with tag [current_tag] rebuilds the list as the
    prior records whose tag differs, in their order, followed by the new
    record, and writes that list to the file.  The new record is made of the
    form's fields alone, nothing of an earlier record with the same tag is
    merged into it, and the records with other tags are those of the prior
    list, unchanged and in the same order. *)
Theorem save_handler_delete_then_append
    (current_tag description merge_instruction category : string)
    (tags_data : list pydict) (w : World) :
  current_tag ≠ "" →
  Forall has_tag tags_data →
  let entry := new_entry strip current_tag description merge_instruction category in
  let saved := filter (λ d, tag_of d ≠ Some current_tag) tags_data ++ [entry] in
  save_handler strip true current_tag description merge_instruction category
    tags_data w
  = (Ok saved, mkWorld (Some saved) (entries w) (calls w) (faults w) (shown w)) ∧
  (entry !! "tag" = Some current_tag ∧
   entry !! "description" = Some (strip description) ∧
   entry !! "merge_instruction" = Some (strip merge_instruction) ∧
   entry !! "category" = Some (strip category) ∧
   dom entry = {["tag"; "description"; "merge_instruction"; "category"]}) ∧
  filter (λ d, tag_of d ≠ Some current_tag) saved
  = filter (λ d, tag_of d ≠ Some current_tag) tags_data ∧
  filter (λ d, tag_of d = Some current_tag) saved = [entry].
Proof.
  intros Hne Hall entry saved. split; [|split; [|split]].
  - unfold save_handler. rewrite bool_decide_eq_true_2 by done.
    cbn [andb]. unfold mbind, M_bind, lift.
    rewrite (without_tag_filter _ _ Hall). reflexivity.
  - repeat split; reflexivity.
  - unfold saved. rewrite filter_app, list_filter_filter.
    rewrite filter_cons, decide_False by (intros H; by apply H).
    rewrite filter_nil, app_nil_r.
    apply list_filter_iff. intros d. tauto.
  - unfold saved. rewrite filter_app.
    rewrite (filter_cons _ entry), decide_True by reflexivity.
    by rewrite filter_excluded.
Qed.

End RecordStore.

Lemma save_handler_delete_then_append_witness :
  "foo" ≠ "" ∧
  Forall has_tag [<["description" := "old"]> (<["tag" := "foo"]> ∅);
                  <["tag" := "bar"]> ∅] ∧
  (save_handler ascii_strip true "foo" " new " "" ""
     [<["description" := "old"]> (<["tag" := "foo"]> ∅); <["tag" := "bar"]> ∅]
     (mkWorld None [] [] [] [])).1
  = Ok [<["tag" := "bar"]> ∅; new_entry ascii_strip "foo" " new " "" ""].
Proof.
  assert (Hne : "foo" ≠ "") by discriminate.
  assert (Hall : Forall has_tag [<["description" := "old"]> (<["tag" := "foo"]> ∅);
                                 <["tag" := "bar"]> ∅]).
  { repeat constructor; by eexists. }
  split; [exact Hne|]. split; [exact Hall|].
  rewrite (proj1 (save_handler_delete_then_append ascii_strip "foo" " new " "" ""
                    _ (mkWorld None [] [] [] []) Hne Hall)).
  reflexivity.
Defined.

(** ** Requests to the Index Store *)

Lemma fate_sent (n : nat) (c : call) (w : World) :
  fate n (sent c w) = fate (S n) w.
Proof. unfold fate, sent. cbn. by rewrite lookup_tail. Qed.

Lemma request_served (c : call) (w : World) :
  fate 0 w = None → request c w = (Ok tt, sent c w).
Proof.
  unfold fate, request. destruct (faults w) as [|[msg|] fs]; cbn; done.
Qed.

Lemma request_failed (c : call) (w : World) (msg : string) :
  fate 0 w = Some msg → request c w = (Raise (ChromaError msg), sent c w).
Proof.
  unfold fate, request. destruct (faults w) as [|[msg'|] fs]; cbn; try done.
  by intros [= ->].
Qed.

Lemma db_get_served (ids : option (list string)) (w : World) :
  fate 0 w = None →
  db_get ids w =
    (Ok (mkGetResult (select ids (entries w)).*1 (select ids (entries w)).*2),
     sent (CallGet ids) w).
Proof. intros H. unfold db_get. by rewrite (request_served _ _ H). Qed.

Lemma db_get_failed (ids : option (list string)) (w : World) (msg : string) :
  fate 0 w = Some msg →
  db_get ids w = (Raise (ChromaError msg), sent (CallGet ids) w).
Proof. intros H. unfold db_get. by rewrite (request_failed _ _ _ H). Qed.

Lemma db_delete_served (ids : list string) (w : World) :
  fate 0 w = None →
  db_delete ids w =
    (Ok tt, mkWorld (json_file w) (filter (λ e, e.1 ∉ ids) (entries w))
              (calls w ++ [CallDelete ids]) (tail (faults w)) (shown w)).
Proof. intros H. unfold db_delete. by rewrite (request_served _ _ H). Qed.

Lemma db_delete_failed (ids : list string) (w : World) (msg : string) :
  fate 0 w = Some msg →
  db_delete ids w = (Raise (ChromaError msg), sent (CallDelete ids) w).
Proof. intros H. unfold db_delete. by rewrite (request_failed _ _ _ H). Qed.

Lemma store_ids_elem (id : string) (w : World) :
  id ∈ store_ids w ↔ id ∈ (entries w).*1.
Proof. unfold store_ids. apply elem_of_list_to_set. Qed.

Lemma elem_of_store_ids (id : string) (w : World) :
  id ∈ store_ids w ↔ ∃ doc, (id, doc) ∈ entries w.
Proof.
  unfold store_ids. rewrite elem_of_list_to_set, list_elem_of_fmap. split.
  - intros ([i d] & -> & Hin). by exists d.
  - intros [d Hin]. by exists (id, d).
Qed.

(** What the script learns at start-up: the ids of the collection and an
    open handle, or, when opening or listing fails, no id and no handle. *)
Lemma get_chroma_status_served (w : World) :
  fate 0 w = None → fate 1 w = None →
  get_chroma_status w =
    (Ok (store_ids w, true), sent (CallGet None) (sent CallOpen w)).
Proof.
  intros H0 H1. unfold get_chroma_status, get_chroma_db. run_monad.
  rewrite (request_served _ _ H0).
  rewrite <- fate_sent with (c := CallOpen) in H1.
  by rewrite (db_get_served _ _ H1).
Qed.

Lemma get_chroma_status_failed (w : World) :
  is_Some (fate 0 w) ∨ is_Some (fate 1 w) →
  ∃ w1, get_chroma_status w = (Ok (∅, false), w1) ∧ entries w1 = entries w.
Proof.
  intros Hfail. unfold get_chroma_status, get_chroma_db. run_monad.
  destruct (fate 0 w) as [msg0|] eqn:H0.
  { rewrite (request_failed _ _ _ H0). by eexists. }
  rewrite (request_served _ _ H0).
  destruct Hfail as [[? [=]]|[msg1 H1]].
  rewrite <- fate_sent with (c := CallOpen) in H1.
  rewrite (db_get_failed _ _ _ H1). by eexists.
Qed.

(** ** Remove-from-index *)

Section Remove.

Variable hash : string → Z.

Lemma filter_other_id (id : string) (w : World) :
  id ∉ store_ids w → filter (λ e, e.1 ≠ id) (entries w) = entries w.
Proof.
  intros Habs. unfold store_ids in Habs. rewrite elem_of_list_to_set in Habs.
  induction (entries w) as [|e es IH]; [reflexivity|].
  rewrite fmap_cons, not_elem_of_cons in Habs. destruct Habs as [Hne Hrest].
  rewrite filter_cons_True by (intros Heq; by apply Hne).
  f_equal. by apply IH.
Qed.

Lemma removed_absent (id : string) (w w1 : World) :
  entries w1 = filter (λ e, e.1 ≠ id) (entries w) → id ∉ store_ids w1.
Proof.
  intros Hent [doc Hin]%elem_of_store_ids. rewrite Hent in Hin.
  apply list_elem_of_filter in Hin as [Hne _]. by apply Hne.
Qed.

(** What one call does, by the fate of its request. *)
Lemma remove_tag_from_chroma_returns (tag_name : string) (w : World) :
  ∃ (status : string) (w1 : World),
    remove_tag_from_chroma hash tag_name w = (Ok status, w1) ∧
    calls w1 = calls w ++ [CallDelete [get_tag_id hash tag_name]] ∧
    (fate 0 w = None →
       status = "Removed tag '" +:+ tag_name +:+ "' from ChromaDB" ∧
       entries w1 = filter (λ e, e.1 ≠ get_tag_id hash tag_name) (entries w)) ∧
    (∀ msg, fate 0 w = Some msg →
       status = "Error removing tag '" +:+ tag_name +:+ "': " +:+ msg ∧
       entries w1 = entries w) ∧
    fate 0 w1 = fate 1 w.
Proof.
  unfold remove_tag_from_chroma, try_except, mbind, M_bind.
  destruct (fate 0 w) as [msg|] eqn:H0.
  - rewrite (db_delete_failed _ _ _ H0). cbn.
    eexists _, _. split; [reflexivity|]. split; [reflexivity|].
    split; [done|]. split; [|apply fate_sent].
    intros msg' [= <-]. done.
  - rewrite (db_delete_served _ _ H0). cbn.
    eexists _, _. split; [reflexivity|]. split; [reflexivity|].
    split; [|split; [done|]].
    + intros _. split; [reflexivity|]. cbn.
      apply list_filter_iff. intros e.
      rewrite list_elem_of_singleton. done.
    + unfold fate. cbn. by rewrite lookup_tail.
Qed.

(** C6: [remove_tag_from_chroma] sends exactly one delete request, for the
    id derived from the tag, and always returns a status string, no
    exception leaves it.  When the store serves the request the status is
    "Removed ..." whether or not the id was present; an id that is not
    present leaves the collection as it was, and so does a second removal
    of the same tag, which again returns a status and, when served, the
    "Removed ..." one. *)
Theorem remove_tag_from_chroma_idempotent (tag_name : string) (w : World) :
  let tag_id := get_tag_id hash tag_name in
  ∃ (status : string) (w1 : World),
    remove_tag_from_chroma hash tag_name w = (Ok status, w1) ∧
    calls w1 = calls w ++ [CallDelete [tag_id]] ∧
    (fate 0 w = None →
       status = "Removed tag '" +:+ tag_name +:+ "' from ChromaDB" ∧
       entries w1 = filter (λ e, e.1 ≠ tag_id) (entries w) ∧
       (tag_id ∉ store_ids w1) ∧
       (tag_id ∉ store_ids w → entries w1 = entries w)) ∧
    (∀ msg, fate 0 w = Some msg →
       status = "Error removing tag '" +:+ tag_name +:+ "': " +:+ msg ∧
       entries w1 = entries w) ∧
    (∃ (status2 : string) (w2 : World),
       remove_tag_from_chroma hash tag_name w1 = (Ok status2, w2) ∧
       (fate 0 w = None → entries w2 = entries w1) ∧
       (fate 1 w = None →
          status2 = "Removed tag '" +:+ tag_name +:+ "' from ChromaDB")).
Proof.
  intros tag_id.
  destruct (remove_tag_from_chroma_returns tag_name w)
    as (status & w1 & Hrun & Hcalls & Hserved & Hfailed & Hfate).
  exists status, w1. split; [exact Hrun|]. split; [exact Hcalls|].
  split; [|split; [exact Hfailed|]].
  - intros H0. destruct (Hserved H0) as [-> Hent]. repeat split; [exact Hent|..].
    + apply (removed_absent _ w). exact Hent.
    + intros Habs. rewrite Hent. apply filter_other_id. exact Habs.
  - destruct (remove_tag_from_chroma_returns tag_name w1)
      as (status2 & w2 & Hrun2 & _ & Hserved2 & Hfailed2 & _).
    exists status2, w2. split; [exact Hrun2|]. split.
    + intros H0. destruct (Hserved H0) as [_ Hent].
      destruct (fate 0 w1) as [msg|] eqn:H1.
      * by destruct (Hfailed2 msg eq_refl).
      * destruct (Hserved2 eq_refl) as [_ ->].
        apply filter_other_id, (removed_absent _ w). exact Hent.
    + intros H1. rewrite <- Hfate in H1. by destruct (Hserved2 H1).
Qed.

End Remove.

(** ** Upsert-to-index *)

Lemma db_add_served (documents ids : list string) (w : World) :
  fate 0 w = None →
  db_add documents ids w =
    (Ok tt,
     mkWorld (json_file w)
       (entries w ++ filter (λ e, e.1 ∉ (entries w).*1) (zip ids documents))
       (calls w ++ [CallAdd documents ids]) (tail (faults w)) (shown w)).
Proof. intros H. unfold db_add. by rewrite (request_served _ _ H). Qed.

Lemma db_add_failed (documents ids : list string) (w : World) (msg : string) :
  fate 0 w = Some msg →
  db_add documents ids w = (Raise (ChromaError msg), sent (CallAdd documents ids) w).
Proof. intros H. unfold db_add. by rewrite (request_failed _ _ _ H). Qed.

Lemma db_update_served (id doc : string) (w : World) :
  fate 0 w = None →
  db_update [id] [doc] w =
    (Ok tt,
     mkWorld (json_file w) (replace_document id doc (entries w))
       (calls w ++ [CallUpdate [id] [doc]]) (tail (faults w)) (shown w)).
Proof.
  intros H. unfold db_update. rewrite (request_served _ _ H).
  unfold set_entries, replace_document. cbn. do 2 f_equal.
  apply list_fmap_ext. intros _ [i d] _. cbn.
  destruct (decide (i = id)) as [->|Hne].
  - by rewrite lookup_insert_eq.
  - rewrite lookup_insert_ne by done. by rewrite lookup_empty.
Qed.

Lemma db_update_failed (ids documents : list string) (w : World) (msg : string) :
  fate 0 w = Some msg →
  db_update ids documents w =
    (Raise (ChromaError msg), sent (CallUpdate ids documents) w).
Proof. intros H. unfold db_update. by rewrite (request_failed _ _ _ H). Qed.

(** The existence check: asking for one id returns ids exactly when the id
    is in the collection. *)
Lemma select_one_nonempty (id : string) (es : list (string * string)) :
  (select (Some [id]) es).*1 ≠ [] ↔ id ∈ es.*1.
Proof.
  unfold select. induction es as [|[i d] es IH].
  - cbn. split; [done | by intros ?%elem_of_nil].
  - destruct (decide (i = id)) as [->|Hne].
    + rewrite filter_cons_True by apply list_elem_of_here.
      split; [intros _; apply list_elem_of_here | done].
    + rewrite filter_cons_False by (cbn; by rewrite list_elem_of_singleton).
      rewrite IH, (fmap_cons fst (i, d) es). cbn [fst].
      split; [by apply list_elem_of_further|].
      intros [?|?]%elem_of_cons; [congruence | done].
Qed.

Lemma replace_document_absent (id doc : string) (es : list (string * string)) :
  id ∉ es.*1 → replace_document id doc es = es.
Proof.
  intros Habs. unfold replace_document. induction es as [|[i d] es IH]; [done|].
  rewrite fmap_cons, not_elem_of_cons in Habs. destruct Habs as [Hne Hrest].
  cbn. rewrite decide_False by (cbn; intros Heq; by apply Hne). f_equal. by apply IH.
Qed.

Lemma replace_document_twice (id doc : string) (es : list (string * string)) :
  replace_document id doc (replace_document id doc es) = replace_document id doc es.
Proof.
  unfold replace_document. rewrite <- list_fmap_compose.
  apply list_fmap_ext. intros _ [i d] _. cbn.
  destruct (decide (i = id)) as [->|Hne]; cbn.
  - by rewrite decide_True.
  - by rewrite decide_False.
Qed.

Lemma replace_document_ids (id doc : string) (es : list (string * string)) :
  (replace_document id doc es).*1 = es.*1.
Proof.
  unfold replace_document. rewrite <- list_fmap_compose.
  apply list_fmap_ext. intros _ [i d] _. cbn. by case_decide.
Qed.

Lemma replace_document_app_new (id doc : string) (es : list (string * string)) :
  id ∉ es.*1 → replace_document id doc (es ++ [(id, doc)]) = es ++ [(id, doc)].
Proof.
  intros Habs. unfold replace_document. rewrite fmap_app.
  fold (replace_document id doc es). rewrite (replace_document_absent _ _ _ Habs).
  cbn. by rewrite decide_True.
Qed.

Section Upsert.

Variable hash : string → Z.

Variables (tag_data : pydict) (tag description : string).
Hypothesis Htag : tag_data !! "tag" = Some tag.
Hypothesis Hdescription : tag_data !! "description" = Some description.

Let tag_id : string := get_tag_id hash tag.
Let doc_str : string := entry_text tag_data.

Lemma sync_get_failed (w : World) (msg : string) :
  fate 0 w = Some msg →
  sync_tag_to_chroma hash tag_data w =
    (Ok ("Error syncing tag '" +:+ tag +:+ "': " +:+ msg),
     sent (CallGet (Some [tag_id])) w).
Proof.
  intros H0. unfold sync_tag_to_chroma. run_monad.
  rewrite (getitem_Some _ _ _ Htag). cbv beta iota.
  rewrite (format_entry_tag_record tag_data) by (split; by eexists).
  cbv beta iota. rewrite (db_get_failed _ _ _ H0). reflexivity.
Qed.

Lemma sync_write_failed (w : World) (msg : string) :
  fate 0 w = None → fate 1 w = Some msg →
  sync_tag_to_chroma hash tag_data w =
    (Ok ("Error syncing tag '" +:+ tag +:+ "': " +:+ msg),
     sent (if decide (tag_id ∈ store_ids w)
           then CallUpdate [tag_id] [doc_str]
           else CallAdd [doc_str] [tag_id])
       (sent (CallGet (Some [tag_id])) w)).
Proof.
  intros H0 H1. unfold sync_tag_to_chroma. run_monad.
  rewrite (getitem_Some _ _ _ Htag). cbv beta iota.
  rewrite (format_entry_tag_record tag_data) by (split; by eexists).
  cbv beta iota. rewrite (db_get_served _ _ H0). cbv beta iota.
  rewrite <- fate_sent with (c := CallGet (Some [get_tag_id hash tag])) in H1.
  cbn [res_ids].
  destruct (decide (tag_id ∈ store_ids w)) as [Hin|Hnin].
  - rewrite bool_decide_eq_true_2
      by (by apply select_one_nonempty, store_ids_elem).
    rewrite (db_update_failed _ _ _ _ H1). reflexivity.
  - rewrite bool_decide_eq_false_2.
    + rewrite (db_add_failed _ _ _ _ H1). reflexivity.
    + rewrite select_one_nonempty. by rewrite <- store_ids_elem.
Qed.

Lemma sync_updated (w : World) :
  fate 0 w = None → fate 1 w = None → tag_id ∈ store_ids w →
  sync_tag_to_chroma hash tag_data w =
    (Ok ("Updated tag '" +:+ tag +:+ "' in ChromaDB"),
     mkWorld (json_file w) (replace_document tag_id doc_str (entries w))
       (calls w ++ [CallGet (Some [tag_id]); CallUpdate [tag_id] [doc_str]])
       (tail (tail (faults w))) (shown w)).
Proof.
  intros H0 H1 Hin. unfold sync_tag_to_chroma. run_monad.
  rewrite (getitem_Some _ _ _ Htag). cbv beta iota.
  rewrite (format_entry_tag_record tag_data) by (split; by eexists).
  cbv beta iota. rewrite (db_get_served _ _ H0). cbv beta iota.
  rewrite <- fate_sent with (c := CallGet (Some [get_tag_id hash tag])) in H1.
  cbn [res_ids].
  rewrite bool_decide_eq_true_2
    by (by apply select_one_nonempty, store_ids_elem).
  rewrite (db_update_served _ _ _ H1). cbn. by rewrite <- app_assoc.
Qed.

Lemma sync_added (w : World) :
  fate 0 w = None → fate 1 w = None → tag_id ∉ store_ids w →
  sync_tag_to_chroma hash tag_data w =
    (Ok ("Added tag '" +:+ tag +:+ "' to ChromaDB"),
     mkWorld (json_file w) (entries w ++ [(tag_id, doc_str)])
       (calls w ++ [CallGet (Some [tag_id]); CallAdd [doc_str] [tag_id]])
       (tail (tail (faults w))) (shown w)).
Proof.
  intros H0 H1 Hnin. unfold sync_tag_to_chroma. run_monad.
  rewrite (getitem_Some _ _ _ Htag). cbv beta iota.
  rewrite (format_entry_tag_record tag_data) by (split; by eexists).
  cbv beta iota. rewrite (db_get_served _ _ H0). cbv beta iota.
  rewrite <- fate_sent with (c := CallGet (Some [get_tag_id hash tag])) in H1.
  cbn [res_ids].
  assert (Hnin' : tag_id ∉ (entries w).*1).
  { by rewrite <- store_ids_elem. }
  rewrite bool_decide_eq_false_2 by (by rewrite select_one_nonempty).
  rewrite (db_add_served _ _ _ H1). cbn [zip zip_with entries sent].
  rewrite filter_cons_True by exact Hnin'.
  cbn. by rewrite <- app_assoc.
Qed.

End Upsert.

Lemma stored_documents_nonempty (id : string) (es : list (string * string)) :
  id ∈ es.*1 → (filter (λ e, e.1 = id) es).*2 ≠ [].
Proof.
  induction es as [|[i d] es IH]; [by intros ?%elem_of_nil|].
  rewrite fmap_cons. cbn [fst]. intros Hin.
  destruct (decide (i = id)) as [->|Hne].
  - by rewrite filter_cons_True.
  - rewrite filter_cons_False by done. apply IH.
    apply elem_of_cons in Hin as [?|?]; [congruence | done].
Qed.

Lemma stored_documents_replaced (id doc : string) (es : list (string * string)) :
  Forall (λ d, d = doc) (filter (λ e, e.1 = id) (replace_document id doc es)).*2.
Proof.
  induction es as [|[i d] es IH]; [constructor|].
  unfold replace_document. rewrite fmap_cons. fold (replace_document id doc es).
  cbn [fst]. destruct (decide (i = id)) as [->|Hne].
  - rewrite filter_cons_True by done. rewrite fmap_cons. by constructor.
  - by rewrite filter_cons_False.
Qed.

Section UpsertProperties.

Variable hash : string → Z.

(** C3: on a tag record [sync_tag_to_chroma] derives the id from the tag and
    first asks the Index Store for that id.  It always returns a status
    string and no exception leaves it.  When both requests are served, it
    replaces the document text stored under the id if the id is present (the
    status is "Updated ...") and appends a new entry if it is absent
    ("Added ..."); when the existence check or the write fails, the failure
    comes back as the status "Error syncing ..." with the text of the
    exception, and the entries are as before. *)
Theorem sync_tag_to_chroma_upsert
    (tag_data : pydict) (tag description : string) (w : World) :
  tag_data !! "tag" = Some tag →
  tag_data !! "description" = Some description →
  let tag_id := get_tag_id hash tag in
  let doc_str := entry_text tag_data in
  format_entry tag_data = Ok doc_str ∧
  ∃ (status : string) (w1 : World),
    sync_tag_to_chroma hash tag_data w = (Ok status, w1) ∧
    (∃ later, calls w1 = calls w ++ CallGet (Some [tag_id]) :: later) ∧
    (status = "Updated tag '" +:+ tag +:+ "' in ChromaDB" ∨
     status = "Added tag '" +:+ tag +:+ "' to ChromaDB" ∨
     ∃ msg, status = "Error syncing tag '" +:+ tag +:+ "': " +:+ msg) ∧
    (fate 0 w = None → fate 1 w = None → tag_id ∈ store_ids w →
       status = "Updated tag '" +:+ tag +:+ "' in ChromaDB" ∧
       entries w1 = replace_document tag_id doc_str (entries w) ∧
       calls w1 =
         calls w ++ [CallGet (Some [tag_id]); CallUpdate [tag_id] [doc_str]]) ∧
    (fate 0 w = None → fate 1 w = None → tag_id ∉ store_ids w →
       status = "Added tag '" +:+ tag +:+ "' to ChromaDB" ∧
       entries w1 = entries w ++ [(tag_id, doc_str)] ∧
       calls w1 =
         calls w ++ [CallGet (Some [tag_id]); CallAdd [doc_str] [tag_id]]) ∧
    (∀ msg, fate 0 w = Some msg ∨ (fate 0 w = None ∧ fate 1 w = Some msg) →
       status = "Error syncing tag '" +:+ tag +:+ "': " +:+ msg ∧
       entries w1 = entries w).
Proof.
  intros Htag Hdesc tag_id doc_str.
  split; [apply format_entry_tag_record; split; by eexists|].
  destruct (fate 0 w) as [msg0|] eqn:H0.
  { eexists _, _. split; [exact (sync_get_failed hash _ _ _ Htag Hdesc w msg0 H0)|].
    split; [by exists []|]. split; [right; right; by exists msg0|].
    split; [done|]. split; [done|].
    intros msg [[= <-]|[? _]]; done. }
  destruct (fate 1 w) as [msg1|] eqn:H1.
  { eexists _, _.
    split; [exact (sync_write_failed hash _ _ _ Htag Hdesc w msg1 H0 H1)|].
    split; [eexists [_]; cbn; by rewrite <- app_assoc|].
    split; [right; right; by exists msg1|].
    split; [done|]. split; [done|].
    intros msg [?|[_ [= <-]]]; done. }
  destruct (decide (tag_id ∈ store_ids w)) as [Hin|Hnin].
  - eexists _, _. split; [exact (sync_updated hash _ _ _ Htag Hdesc w H0 H1 Hin)|].
    split; [by eexists [_]|]. split; [by left|].
    split; [intros _ _ _; by repeat split|]. split; [by intros _ _ ?|].
    intros msg [?|[_ ?]]; done.
  - eexists _, _. split; [exact (sync_added hash _ _ _ Htag Hdesc w H0 H1 Hnin)|].
    split; [by eexists [_]|]. split; [right; by left|].
    split; [by intros _ _ ?|]. split; [intros _ _ _; by repeat split|].
    intros msg [?|[_ ?]]; done.
Qed.

(** Once the entries stored under the id all carry the document of the
    record, a further upsert of the record leaves every entry as it is,
    whatever the fate of its requests. *)
Lemma sync_entries_stable
    (tag_data : pydict) (tag description : string) (w : World) :
  tag_data !! "tag" = Some tag →
  tag_data !! "description" = Some description →
  get_tag_id hash tag ∈ store_ids w →
  replace_document (get_tag_id hash tag) (entry_text tag_data) (entries w)
  = entries w →
  ∃ (status : string) (w1 : World),
    sync_tag_to_chroma hash tag_data w = (Ok status, w1) ∧
    entries w1 = entries w.
Proof.
  intros Htag Hdesc Hin Hfix.
  destruct (fate 0 w) as [msg0|] eqn:H0.
  { eexists _, _. split; [exact (sync_get_failed hash _ _ _ Htag Hdesc w msg0 H0)|].
    reflexivity. }
  destruct (fate 1 w) as [msg1|] eqn:H1.
  { eexists _, _.
    split; [exact (sync_write_failed hash _ _ _ Htag Hdesc w msg1 H0 H1)|].
    reflexivity. }
  eexists _, _. split; [exact (sync_updated hash _ _ _ Htag Hdesc w H0 H1 Hin)|].
  exact Hfix.
Qed.

(** Upserts never make two entries share an id. *)
Lemma sync_keeps_ids_distinct
    (tag_data : pydict) (tag description : string) (w : World) :
  tag_data !! "tag" = Some tag →
  tag_data !! "description" = Some description →
  NoDup (entries w).*1 →
  NoDup (entries (sync_tag_to_chroma hash tag_data w).2).*1.
Proof.
  intros Htag Hdesc Hnd.
  destruct (fate 0 w) as [msg0|] eqn:H0.
  { by rewrite (sync_get_failed hash _ _ _ Htag Hdesc w msg0 H0). }
  destruct (fate 1 w) as [msg1|] eqn:H1.
  { by rewrite (sync_write_failed hash _ _ _ Htag Hdesc w msg1 H0 H1). }
  destruct (decide (get_tag_id hash tag ∈ store_ids w)) as [Hin|Hnin].
  - rewrite (sync_updated hash _ _ _ Htag Hdesc w H0 H1 Hin). cbn.
    by rewrite replace_document_ids.
  - rewrite (sync_added hash _ _ _ Htag Hdesc w H0 H1 Hnin). cbn.
    rewrite fmap_app. apply NoDup_app. split; [done|]. split.
    + intros id Hid ->%list_elem_of_singleton. by apply Hnin, store_ids_elem.
    + apply NoDup_singleton.
Qed.

(** C5: when the first of two upserts of the same record goes through, the
    id of the record is in the Index Store with the document of the record
    as its text, and the second upsert, served or not, changes no entry: the
    text stored under the id is the same after the second call as after the
    first. *)
Theorem sync_tag_to_chroma_twice
    (tag_data : pydict) (tag description : string) (w : World) :
  tag_data !! "tag" = Some tag →
  tag_data !! "description" = Some description →
  fate 0 w = None → fate 1 w = None →
  let tag_id := get_tag_id hash tag in
  let doc_str := entry_text tag_data in
  ∃ (status1 : string) (w1 : World) (status2 : string) (w2 : World),
    sync_tag_to_chroma hash tag_data w = (Ok status1, w1) ∧
    sync_tag_to_chroma hash tag_data w1 = (Ok status2, w2) ∧
    documents_of tag_id w1 ≠ [] ∧
    Forall (λ d, d = doc_str) (documents_of tag_id w1) ∧
    documents_of tag_id w2 = documents_of tag_id w1 ∧
    entries w2 = entries w1.
Proof.
  intros Htag Hdesc H0 H1 tag_id doc_str.
  assert (∃ (status1 : string) (w1 : World),
            sync_tag_to_chroma hash tag_data w = (Ok status1, w1) ∧
            tag_id ∈ store_ids w1 ∧
            replace_document tag_id doc_str (entries w1) = entries w1)
    as (status1 & w1 & Hrun1 & Hin1 & Hfix1).
  { destruct (decide (tag_id ∈ store_ids w)) as [Hin|Hnin].
    - eexists _, _.
      split; [exact (sync_updated hash _ _ _ Htag Hdesc w H0 H1 Hin)|]. split.
      + apply store_ids_elem. cbn. rewrite replace_document_ids.
        by apply store_ids_elem.
      + cbn. apply replace_document_twice.
    - eexists _, _.
      split; [exact (sync_added hash _ _ _ Htag Hdesc w H0 H1 Hnin)|]. split.
      + apply store_ids_elem. cbn. rewrite fmap_app. set_solver.
      + cbn. apply replace_document_app_new. by rewrite <- store_ids_elem. }
  destruct (sync_entries_stable tag_data tag description w1 Htag Hdesc Hin1 Hfix1)
    as (status2 & w2 & Hrun2 & Hent2).
  exists status1, w1, status2, w2.
  split; [exact Hrun1|]. split; [exact Hrun2|].
  unfold documents_of. rewrite Hent2. repeat split.
  - apply stored_documents_nonempty. by apply store_ids_elem.
  - rewrite <- Hfix1. apply stored_documents_replaced.
Qed.

End UpsertProperties.

(** ** Orphan reconciliation *)

Lemma filter_agree {A : Type} (P Q : A → Prop)
    `{!∀ x, Decision (P x), !∀ x, Decision (Q x)} (l : list A) :
  (∀ x, x ∈ l → P x ↔ Q x) → filter P l = filter Q l.
Proof.
  induction l as [|x l IH]; intros Hagree; [reflexivity|].
  assert (Htl : filter P l = filter Q l).
  { apply IH. intros y Hy. apply Hagree. by apply list_elem_of_further. }
  pose proof (Hagree x (list_elem_of_here x l)) as Hx.
  destruct (decide (P x)) as [HP|HnP].
  - rewrite !filter_cons_True by tauto. by rewrite Htl.
  - rewrite !filter_cons_False by tauto. exact Htl.
Qed.

Lemma filter_all {A : Type} (P : A → Prop) `{!∀ x, Decision (P x)} (l : list A) :
  (∀ x, x ∈ l → P x) → filter P l = l.
Proof.
  induction l as [|x l IH]; intros Hall; [reflexivity|].
  rewrite filter_cons_True by apply Hall, list_elem_of_here.
  f_equal. apply IH. intros y Hy. apply Hall. by apply list_elem_of_further.
Qed.

Lemma store_ids_filter (E : gset string) (es : list (string * string)) :
  list_to_set (filter (λ e, e.1 ∈ E) es).*1 =@{gset string} E ∩ list_to_set es.*1.
Proof.
  apply set_eq. intros id.
  rewrite elem_of_intersection, !elem_of_list_to_set, !list_elem_of_fmap.
  split.
  - intros (e & -> & [HE Hin]%list_elem_of_filter). split; [done|]. by exists e.
  - intros [HE (e & -> & Hin)]. exists e. split; [done|].
    by apply list_elem_of_filter.
Qed.

Section Orphans.

Variable hash : string → Z.

Lemma expected_ids_of_tags (tags_data : list pydict) :
  Forall has_tag tags_data →
  expected_ids_of hash tags_data =
    Ok (list_to_set (get_tag_id hash <$> omap tag_of tags_data)).
Proof.
  induction tags_data as [|tag rest IH]; intros Hall; [reflexivity|].
  apply Forall_cons_1 in Hall as [[name Hname] Hrest].
  cbn [expected_ids_of]. rewrite (getitem_Some _ _ _ Hname), (IH Hrest).
  cbn [omap list_omap]. change (tag_of tag) with (tag !! "tag").
  rewrite Hname. reflexivity.
Qed.

(** C1: when the handle is open and the store serves the requests,
    [clean_orphaned_chroma_entries] leaves in the Index Store exactly the
    entries whose id is expected: with [E] the ids derived from the current
    tags and [A] the ids that were present, the ids present afterwards are
    [E ∩ A], and an entry whose id is in [E] is kept as it was, document and
    position.  The ids of [A] that are not in [E] are sent in a single
    delete request, and no delete request is sent when there are none. *)
Theorem clean_orphaned_chroma_entries_exact
    (tags_data : list pydict) (w : World) :
  Forall has_tag tags_data →
  fate 0 w = None → fate 1 w = None →
  let E : gset string := list_to_set (get_tag_id hash <$> omap tag_of tags_data) in
  let A : gset string := store_ids w in
  expected_ids_of hash tags_data = Ok E ∧
  ∃ (status : string) (w1 : World) (batch : list string),
    clean_orphaned_chroma_entries hash true tags_data w = (Ok status, w1) ∧
    store_ids w1 = E ∩ A ∧
    entries w1 = filter (λ e, e.1 ∈ E) (entries w) ∧
    (∀ id doc, id ∈ E → (id, doc) ∈ entries w1 ↔ (id, doc) ∈ entries w) ∧
    (∀ id, id ∈ batch ↔ id ∈ A ∧ id ∉ E) ∧
    NoDup batch ∧
    calls w1 =
      calls w ++ CallGet None ::
        (if decide (batch = []) then [] else [CallDelete batch]) ∧
    status =
      (if decide (batch = []) then "No orphaned entries found"
       else "Removed " +:+ pretty (length batch) +:+
            " orphaned entries from ChromaDB").
Proof.
  intros Hall H0 H1 E A.
  split; [apply expected_ids_of_tags, Hall|].
  assert (Hbatch : ∀ id, id ∈ elements (A ∖ E) ↔ id ∈ A ∧ id ∉ E).
  { intros id. rewrite elem_of_elements. set_solver. }
  assert (Hkeep : ∀ id doc, id ∈ E →
            (id, doc) ∈ filter (λ e, e.1 ∈ E) (entries w) ↔ (id, doc) ∈ entries w).
  { intros id doc HE. rewrite list_elem_of_filter. cbn. tauto. }
  unfold clean_orphaned_chroma_entries. cbn [negb]. run_monad.
  rewrite (expected_ids_of_tags _ Hall). cbv beta iota.
  rewrite (db_get_served _ _ H0). cbv beta iota. cbn [select res_ids].
  fold (store_ids w). fold A. fold E.
  rewrite <- fate_sent with (c := CallGet None) in H1.
  destruct (decide (A ∖ E = ∅)) as [Hnone|Hsome].
  - rewrite bool_decide_eq_false_2 by (intros H; by apply H).
    assert (Hel : elements (A ∖ E) = []).
    { rewrite Hnone. apply elements_empty. }
    assert (Hfil : filter (λ e, e.1 ∈ E) (entries w) = entries w).
    { apply filter_all. intros [id doc] Hin. cbn.
      destruct (decide (id ∈ E)) as [|HnE]; [done|].
      assert (id ∈ A ∖ E) as Hbad; [|by rewrite Hnone in Hbad].
      apply elem_of_difference. split; [|done].
      apply elem_of_store_ids. by exists doc. }
    exists "No orphaned entries found", (sent (CallGet None) w), (elements (A ∖ E)).
    split; [reflexivity|]. split.
    { unfold store_ids. cbn. rewrite <- Hfil at 1. apply store_ids_filter. }
    split; [by rewrite Hfil|]. split; [intros id doc _; reflexivity|].
    split; [exact Hbatch|]. split; [apply NoDup_elements|].
    rewrite Hel. by split.
  - rewrite bool_decide_eq_true_2 by done.
    rewrite (db_delete_served _ _ H1). cbv beta iota.
    assert (Hel : elements (A ∖ E) ≠ []).
    { intros Hnil. apply Hsome. apply leibniz_equiv.
      by apply elements_empty_iff. }
    assert (Hfil : filter (λ e, e.1 ∉ elements (A ∖ E)) (entries w)
                   = filter (λ e, e.1 ∈ E) (entries w)).
    { apply filter_agree. intros [id doc] Hin. cbn. rewrite Hbatch.
      assert (id ∈ A) by (apply elem_of_store_ids; by exists doc).
      destruct (decide (id ∈ E)); tauto. }
    eexists _, _, (elements (A ∖ E)). split; [reflexivity|]. cbn.
    split; [unfold store_ids; cbn; rewrite Hfil; apply store_ids_filter|].
    split; [exact Hfil|]. split; [rewrite Hfil; exact Hkeep|].
    split; [exact Hbatch|]. split; [apply NoDup_elements|].
    rewrite !decide_False by done. split; [by rewrite <- app_assoc|].
    reflexivity.
Qed.

End Orphans.

(** ** Content search *)

Lemma append_String (c : ascii) (s t : string) :
  String c s +:+ t = String c (s +:+ t).
Proof. reflexivity. Qed.

Lemma append_append (s t u : string) : (s +:+ t) +:+ u = s +:+ t +:+ u.
Proof.
  induction s as [|c s IH]; [reflexivity|].
  by rewrite !append_String, IH.
Qed.

Lemma prefix_append (s1 s2 : string) :
  String.prefix s1 s2 = true ↔ ∃ rest, s2 = s1 +:+ rest.
Proof.
  revert s2. induction s1 as [|c s1 IH]; intros s2.
  - split; [intros _; by exists s2 | by destruct s2].
  - destruct s2 as [|c' s2]; cbn.
    + split; [done | by intros [rest Hrest]].
    + destruct (Ascii.ascii_dec c c') as [->|Hne].
      * rewrite IH. setoid_rewrite append_String.
        split; intros [rest Hrest]; exists rest; congruence.
      * split; [done | intros [rest Hrest]; rewrite append_String in Hrest; congruence].
Qed.

Lemma contains_occurs (needle hay : string) :
  contains needle hay = true ↔ occurs needle hay.
Proof.
  unfold occurs. induction hay as [|c hay IH]; cbn [contains].
  - rewrite orb_false_r, prefix_append. split.
    + intros [rest Hrest]. by exists EmptyString, rest.
    + intros ([|c before] & after & Heq); [by exists after | discriminate].
  - rewrite orb_true_iff, prefix_append, IH. split.
    + intros [[rest Hrest]|(before & after & Heq)].
      * by exists EmptyString, rest.
      * exists (String c before), after. by rewrite append_String, Heq.
    + intros ([|c' before] & after & Heq).
      * left. by exists after.
      * right. exists before, after. rewrite append_String in Heq. congruence.
Qed.

Lemma has_tag_header_occurs (tag_name doc : string) :
  has_tag_header tag_name doc → occurs ("Tag: " +:+ tag_name) doc.
Proof.
  intros [rest ->]. exists EmptyString, (nl +:+ rest).
  change (EmptyString +:+ ?s) with s. by rewrite append_append.
Qed.

Section Search.

Variable lower : string → string.

Lemma search_from_entries (tag_name : string)
    (es seen : list (string * string)) (matches : list Match) :
  search_from lower tag_name (seen ++ es).*1 (length seen) es.*2 matches
  = Ok (matches ++ found lower tag_name es).
Proof.
  revert seen matches. induction es as [|[id doc] es IH]; intros seen matches.
  - cbn. by rewrite app_nil_r.
  - rewrite (fmap_cons snd). cbn [snd search_from].
    replace (seen ++ (id, doc) :: es) with ((seen ++ [(id, doc)]) ++ es)
      by (by rewrite <- app_assoc).
    replace (S (length seen)) with (length (seen ++ [(id, doc)]))
      by (rewrite length_app; cbn; lia).
    unfold found. rewrite filter_cons. cbn [snd].
    destruct (contains (lower tag_name) (lower doc)) eqn:Hhit.
    + rewrite decide_True by done.
      replace (((seen ++ [(id, doc)]) ++ es).*1 !! length seen) with (Some id).
      * rewrite IH, <- app_assoc. reflexivity.
      * rewrite <- app_assoc. cbn [app]. rewrite fmap_app, (fmap_cons fst).
        cbn [fst]. rewrite <- (length_fmap fst seen).
        symmetry. by apply list_lookup_middle.
    + rewrite decide_False by (by rewrite not_true_iff_false).
      apply IH.
Qed.

End Search.

Section SearchProperties.

Variable lower : string → string.

Lemma get_all_chroma_documents_served (w : World) :
  fate 0 w = None → fate 1 w = None →
  get_all_chroma_documents w =
    (Ok (Some (mkGetResult (entries w).*1 (entries w).*2)),
     sent (CallGet None) (sent CallOpen w)).
Proof.
  intros H0 H1. unfold get_all_chroma_documents, get_chroma_db. run_monad.
  rewrite (request_served _ _ H0).
  rewrite <- fate_sent with (c := CallOpen) in H1.
  by rewrite (db_get_served _ _ H1).
Qed.

Lemma get_all_chroma_documents_failed (w : World) :
  is_Some (fate 0 w) ∨ is_Some (fate 1 w) →
  ∃ w1, get_all_chroma_documents w = (Ok None, w1) ∧ entries w1 = entries w.
Proof.
  intros Hfail. unfold get_all_chroma_documents, get_chroma_db. run_monad.
  destruct (fate 0 w) as [msg0|] eqn:H0.
  { rewrite (request_failed _ _ _ H0). by eexists. }
  rewrite (request_served _ _ H0).
  destruct Hfail as [[? [=]]|[msg1 H1]].
  rewrite <- fate_sent with (c := CallOpen) in H1.
  rewrite (db_get_failed _ _ _ H1). by eexists.
Qed.

(** What the search computes.  [search_tag_in_chroma] always returns a
    list.  When the store serves the two requests, the list holds one match
    per stored document whose lowercased text contains the lowercased query,
    in the order of the store, each with the id and the text of its
    document; the flag of a match is true if and only if the text of the
    document contains, letter case included, the string "Tag: " followed by
    the query.  The flag is thus set on every document that opens with the
    tag header of the query, and also wherever that string occurs
    otherwise.  When a request fails the list is empty.  The entries are
    never changed. *)
Theorem search_tag_in_chroma_scan (tag_name : string) (w : World) :
  ∃ (matches : list Match) (w1 : World),
    search_tag_in_chroma lower tag_name w = (Ok matches, w1) ∧
    entries w1 = entries w ∧
    (is_Some (fate 0 w) ∨ is_Some (fate 1 w) → matches = []) ∧
    (fate 0 w = None → fate 1 w = None →
       (λ m, (match_id m, match_document m)) <$> matches
       = filter (λ e, contains (lower tag_name) (lower e.2) = true) (entries w) ∧
       (∀ id doc,
          (id, doc) ∈ (λ m, (match_id m, match_document m)) <$> matches ↔
          (id, doc) ∈ entries w ∧ occurs (lower tag_name) (lower doc)) ∧
       Forall (λ m,
                 (exact_match m = true ↔
                  occurs ("Tag: " +:+ tag_name) (match_document m)) ∧
                 (has_tag_header tag_name (match_document m) →
                  exact_match m = true))
         matches).
Proof.
  unfold search_tag_in_chroma.
  destruct (fate 0 w) as [msg0|] eqn:H0.
  { destruct (get_all_chroma_documents_failed w) as (w1 & Hrun & Hent).
    { left. rewrite H0. by eexists. }
    unfold try_except at 1. unfold mbind at 1, M_bind at 1. rewrite Hrun.
    exists [], w1. by repeat split. }
  destruct (fate 1 w) as [msg1|] eqn:H1.
  { destruct (get_all_chroma_documents_failed w) as (w1 & Hrun & Hent).
    { right. rewrite H1. by eexists. }
    unfold try_except at 1. unfold mbind at 1, M_bind at 1. rewrite Hrun.
    exists [], w1. by repeat split. }
  unfold try_except at 1. unfold mbind at 1, M_bind at 1.
  rewrite (get_all_chroma_documents_served _ H0 H1). unfold lift. cbn [res_ids res_documents].
  pose proof (search_from_entries lower tag_name (entries w) [] []) as Hscan.
  cbn [app length] in Hscan. rewrite Hscan.
  exists (found lower tag_name (entries w)), (sent (CallGet None) (sent CallOpen w)).
  split; [reflexivity|]. split; [reflexivity|].
  split; [by intros [[? [=]]|[? [=]]]|]. intros _ _.
  assert (Hpairs : (λ m, (match_id m, match_document m)) <$> found lower tag_name (entries w)
                   = filter (λ e, contains (lower tag_name) (lower e.2) = true) (entries w)).
  { unfold found. rewrite <- list_fmap_compose.
    rewrite <- (list_fmap_id (filter _ (entries w))) at 2.
    apply list_fmap_ext. by intros _ [id doc] _. }
  split; [exact Hpairs|]. split.
  - intros id doc. rewrite Hpairs, list_elem_of_filter. cbn.
    rewrite contains_occurs. tauto.
  - unfold found. apply Forall_fmap, Forall_forall. intros [id doc] _. cbn.
    split; [apply contains_occurs|].
    intros Hhead. by apply contains_occurs, has_tag_header_occurs.
Qed.

End SearchProperties.

(** C7: the scan returns one match per document that contains the query,
    but the flag [exact_match] is not confined to documents under the tag
    header of the query.  After the tag "foobar" has been pushed to the
    Index Store, a search for "foo" returns its document with the flag set,
    although the header of that document is the one of "foobar": the test
    [f"Tag: {tag_name}" in doc] also succeeds when the query is a proper
    prefix of the tag.  Hence the flag is not "true if and only if the
    document has the exact tag header of the query". *)
Lemma search_flags_longer_tag :
  (∃ id doc : string,
     entries (sync_tag_to_chroma (keyed_hash 0) (record_of "foobar" "d")
                empty_world).2 = [(id, doc)] ∧
     format_entry (record_of "foobar" "d") = Ok doc ∧
     (search_tag_in_chroma ascii_lower "foo"
        (sync_tag_to_chroma (keyed_hash 0) (record_of "foobar" "d")
           empty_world).2).1
     = Ok [mkMatch id doc true] ∧
     ¬ has_tag_header "foo" doc) ∧
  ¬ (∀ (tag_name : string) (w w1 : World) (matches : list Match),
       search_tag_in_chroma ascii_lower tag_name w = (Ok matches, w1) →
       Forall (λ m, exact_match m = true ↔
                    has_tag_header tag_name (match_document m)) matches).
Proof.
  assert (Hhead : ¬ has_tag_header "foo" (entry_text (record_of "foobar" "d"))).
  { intros [rest Hrest]. vm_compute in Hrest. discriminate Hrest. }
  split.
  - eexists _, _. split; [reflexivity|]. split; [reflexivity|].
    split; [reflexivity|]. exact Hhead.
  - intros Hclaim.
    pose (w := (sync_tag_to_chroma (keyed_hash 0) (record_of "foobar" "d")
                  empty_world).2).
    specialize (Hclaim "foo" w (search_tag_in_chroma ascii_lower "foo" w).2
                  [mkMatch (get_tag_id (keyed_hash 0) "foobar")
                     (entry_text (record_of "foobar" "d")) true] eq_refl).
    apply Forall_cons_1 in Hclaim as [Hflag _]. cbn [exact_match match_document] in Hflag.
    apply Hhead, Hflag. reflexivity.
Qed.

(** ** The model at work *)

(** Python's floor modulo: a negative hash still lands in the id range. *)
Example get_tag_id_negative_hash :
  get_tag_id (λ _, -1)%Z "" = "tag_99999999" ∧
  get_tag_id (λ _, 0)%Z "" = "tag_0" ∧
  get_tag_id (λ _, 10 ^ 8 + 5)%Z "foo" = "tag_5".
Proof. repeat split; reflexivity. Qed.

(** Under another seed the same tag can get another id: ids are stable
    across runs only as far as the seed is. *)
Example get_tag_id_other_seed :
  get_tag_id (keyed_hash 0) "foo" ≠ get_tag_id (keyed_hash 1) "foo".
Proof. vm_compute. discriminate. Qed.

(** Distinct tags can share an id. *)
Example get_tag_id_collision :
  get_tag_id (λ s, Z.of_nat (String.length s)) "ab"
  = get_tag_id (λ s, Z.of_nat (String.length s)) "cd".
Proof. reflexivity. Qed.

(** The example of the specification: after the upsert of the record with
    tag "foo" and description "d" the Index Store holds one entry, under the
    derived id, whose text starts with the two header lines; after the
    removal of "foo" a [get] for that id returns no id. *)
Example upsert_then_remove :
  let F := get_tag_id (keyed_hash 0) "foo" in
  let w1 := (sync_tag_to_chroma (keyed_hash 0) (record_of "foo" "d") empty_world).2 in
  let w2 := (remove_tag_from_chroma (keyed_hash 0) "foo" w1).2 in
  (∃ doc rest,
     entries w1 = [(F, doc)] ∧
     doc = "Tag: foo" +:+ nl +:+ "Description: d" +:+ rest) ∧
  (db_get (Some [F]) w2).1 = Ok (mkGetResult [] []).
Proof.
  split; [|reflexivity]. eexists _, _. split; reflexivity.
Qed.

(** A request that fails is reported in the status and changes no entry. *)
Example upsert_on_failing_store :
  sync_tag_to_chroma (keyed_hash 0) (record_of "foo" "d")
    (mkWorld None [] [] [Some "connection refused"] [])
  = (Ok "Error syncing tag 'foo': connection refused",
     mkWorld None [] [CallGet (Some [get_tag_id (keyed_hash 0) "foo"])] [] []).
Proof. reflexivity. Qed.

(** Without orphans no delete request is sent. *)
Example clean_without_orphans :
  clean_orphaned_chroma_entries (keyed_hash 0) true [record_of "a" ""]
    (mkWorld None [(get_tag_id (keyed_hash 0) "a", "A")] [] [] [])
  = (Ok "No orphaned entries found",
     mkWorld None [(get_tag_id (keyed_hash 0) "a", "A")] [CallGet None] [] []).
Proof. vm_compute. reflexivity. Qed.

(** Without a handle nothing is asked of the store. *)
Example clean_without_handle :
  clean_orphaned_chroma_entries (keyed_hash 0) false [record_of "a" ""]
    (mkWorld None [("x", "X")] [] [] [])
  = (Ok "ChromaDB not available", mkWorld None [("x", "X")] [] [] []).
Proof. reflexivity. Qed.

(** A failure of [db.get()] in [clean_orphaned_chroma_entries] is outside
    its [try] and leaves the function as an exception. *)
Example clean_get_failure_escapes :
  (clean_orphaned_chroma_entries (keyed_hash 0) true [record_of "a" ""]
     (mkWorld None [] [] [Some "down"] [])).1
  = Raise (ChromaError "down").
Proof. reflexivity. Qed.

(** ** The theorems at concrete inputs *)

Lemma get_tag_id_range_witness :
  NoDup (get_tag_id (keyed_hash 0) <$> ["a"; "b"; "c"]) ∧
  (Z.of_nat (length ["a"; "b"; "c"]) ≤ 10 ^ 8)%Z.
Proof.
  assert (H : NoDup (get_tag_id (keyed_hash 0) <$> ["a"; "b"; "c"])).
  { apply (bool_decide_unpack _). vm_compute. exact I. }
  split; [exact H|].
  exact (proj2 (get_tag_id_range (keyed_hash 0)) ["a"; "b"; "c"] H).
Defined.

Lemma sync_tag_to_chroma_upsert_witness :
  ∃ w1 : World,
    sync_tag_to_chroma (keyed_hash 0) (record_of "foo" "d") empty_world
    = (Ok "Added tag 'foo' to ChromaDB", w1) ∧
    entries w1 =
      [(get_tag_id (keyed_hash 0) "foo", entry_text (record_of "foo" "d"))].
Proof.
  destruct (sync_tag_to_chroma_upsert (keyed_hash 0) (record_of "foo" "d")
              "foo" "d" empty_world eq_refl eq_refl)
    as (_ & status & w1 & Hrun & _ & _ & _ & Hadded & _).
  destruct (Hadded eq_refl eq_refl (not_elem_of_empty _)) as (-> & Hent & _).
  exists w1. split; [exact Hrun | exact Hent].
Defined.

Lemma sync_tag_to_chroma_twice_witness :
  ∃ (status1 : string) (w1 : World) (status2 : string) (w2 : World),
    sync_tag_to_chroma (keyed_hash 0) (record_of "foo" "d") empty_world
    = (Ok status1, w1) ∧
    sync_tag_to_chroma (keyed_hash 0) (record_of "foo" "d") w1 = (Ok status2, w2) ∧
    documents_of (get_tag_id (keyed_hash 0) "foo") w2
    = documents_of (get_tag_id (keyed_hash 0) "foo") w1.
Proof.
  destruct (sync_tag_to_chroma_twice (keyed_hash 0) (record_of "foo" "d")
              "foo" "d" empty_world eq_refl eq_refl eq_refl eq_refl)
    as (status1 & w1 & status2 & w2 & Hrun1 & Hrun2 & _ & _ & Hdocs & _).
  exists status1, w1, status2, w2. by repeat split.
Defined.

Lemma remove_tag_from_chroma_idempotent_witness :
  ∃ (status : string) (w1 : World),
    remove_tag_from_chroma (keyed_hash 0) "foo" empty_world = (Ok status, w1) ∧
    status = "Removed tag 'foo' from ChromaDB" ∧
    entries w1 = entries empty_world.
Proof.
  destruct (remove_tag_from_chroma_idempotent (keyed_hash 0) "foo" empty_world)
    as (status & w1 & Hrun & _ & Hserved & _).
  destruct (Hserved eq_refl) as (Hstatus & _ & _ & Hsame).
  exists status, w1. split; [exact Hrun|]. split; [exact Hstatus|].
  apply Hsame, not_elem_of_empty.
Defined.

Lemma clean_orphaned_chroma_entries_exact_witness :
  Forall has_tag [record_of "a" ""; record_of "b" ""] ∧
  ∃ (status : string) (w1 : World),
    clean_orphaned_chroma_entries (keyed_hash 0) true
      [record_of "a" ""; record_of "b" ""]
      (mkWorld None
         [(get_tag_id (keyed_hash 0) "a", "A");
          (get_tag_id (keyed_hash 0) "b", "B");
          (get_tag_id (keyed_hash 0) "c", "C")] [] [] [])
    = (Ok status, w1) ∧
    entries w1 =
      [(get_tag_id (keyed_hash 0) "a", "A"); (get_tag_id (keyed_hash 0) "b", "B")].
Proof.
  assert (Hall : Forall has_tag [record_of "a" ""; record_of "b" ""]).
  { repeat constructor; by eexists. }
  split; [exact Hall|].
  destruct (clean_orphaned_chroma_entries_exact (keyed_hash 0)
              [record_of "a" ""; record_of "b" ""]
              (mkWorld None
                 [(get_tag_id (keyed_hash 0) "a", "A");
                  (get_tag_id (keyed_hash 0) "b", "B");
                  (get_tag_id (keyed_hash 0) "c", "C")] [] [] [])
              Hall eq_refl eq_refl)
    as (_ & status & w1 & batch & Hrun & _ & Hent & _).
  exists status, w1. split; [exact Hrun|]. rewrite Hent. vm_compute. reflexivity.
Defined.

Lemma search_tag_in_chroma_scan_example :
  ∃ (matches : list Match) (w1 : World),
    search_tag_in_chroma ascii_lower "Foo"
      (mkWorld None [("tag_1", "Tag: Foo"); ("tag_2", "Tag: bar"); ("x", "food")]
         [] [] [])
    = (Ok matches, w1) ∧
    (λ m, (match_id m, match_document m)) <$> matches
    = [("tag_1", "Tag: Foo"); ("x", "food")].
Proof.
  destruct (search_tag_in_chroma_scan ascii_lower "Foo"
              (mkWorld None
                 [("tag_1", "Tag: Foo"); ("tag_2", "Tag: bar"); ("x", "food")]
                 [] [] []))
    as (matches & w1 & Hrun & _ & _ & Hserved).
  destruct (Hserved eq_refl eq_refl) as (Hpairs & _).
  exists matches, w1. split; [exact Hrun|]. rewrite Hpairs. reflexivity.
Qed.

(** * Further properties of the script *)

(** ** Start-up *)

(** X1: [get_chroma_status] never raises and never changes an entry.  It
    returns a handle exactly when the collection could be opened and
    listed, and then the ids it returns are those of the Index Store; when
    one of the two requests fails it returns no id and no handle and puts
    the error on screen. *)
Theorem get_chroma_status_outcome (w : World) :
  ∃ (chroma_ids : gset string) (db : bool) (w1 : World),
    get_chroma_status w = (Ok (chroma_ids, db), w1) ∧
    entries w1 = entries w ∧
    (db = true ↔ fate 0 w = None ∧ fate 1 w = None) ∧
    (db = true → chroma_ids = store_ids w ∧ shown w1 = shown w) ∧
    (db = false →
       chroma_ids = ∅ ∧
       ∃ msg, shown w1 = shown w ++ ["Error accessing ChromaDB: " +:+ msg]).
Proof.
  unfold get_chroma_status, get_chroma_db. run_monad.
  destruct (fate 0 w) as [msg0|] eqn:H0.
  { rewrite (request_failed _ _ _ H0). cbn.
    eexists _, _, _. split; [reflexivity|]. split; [reflexivity|].
    split; [split; [done | by intros [? _]]|]. split; [done|].
    intros _. split; [done|]. by exists msg0. }
  rewrite (request_served _ _ H0).
  destruct (fate 1 w) as [msg1|] eqn:H1.
  - rewrite <- fate_sent with (c := CallOpen) in H1.
    rewrite (db_get_failed _ _ _ H1). cbn.
    eexists _, _, _. split; [reflexivity|]. split; [reflexivity|].
    split; [split; [done | by intros [_ ?]]|]. split; [done|].
    intros _. split; [done|]. by exists msg1.
  - rewrite <- fate_sent with (c := CallOpen) in H1.
    rewrite (db_get_served _ _ H1). cbn.
    eexists _, _, _. split; [reflexivity|]. split; [reflexivity|].
    split; [done|]. split; [done|]. done.
Qed.

(** ** Search box and selection *)

Section Selection.

Variable lower : string → string.
Variable strip : string → string.

Lemma filtered_tags_filter (search_query : string) (tags_data : list pydict) :
  Forall has_tag tags_data →
  filtered_tags lower tags_data search_query =
    Ok (filter (λ d, contains (lower search_query)
                       (lower (default "" (tag_of d))) = true) tags_data).
Proof.
  induction tags_data as [|tag rest IH]; intros Hall; [reflexivity|].
  apply Forall_cons_1 in Hall as [[name Hname] Hrest].
  cbn [filtered_tags]. rewrite (getitem_Some _ _ _ Hname), (IH Hrest). cbn.
  f_equal. change (tag_of tag) with (tag !! "tag"). rewrite Hname. cbn.
  destruct (contains (lower search_query) (lower name)) eqn:Hhit.
  - by rewrite decide_True.
  - rewrite decide_False; [done | by rewrite not_true_iff_false].
Qed.

Lemma existing_tag_names_tags (tags : list pydict) :
  Forall has_tag tags → existing_tag_names tags = Ok (omap tag_of tags).
Proof.
  induction tags as [|t rest IH]; intros Hall; [reflexivity|].
  apply Forall_cons_1 in Hall as [[name Hname] Hrest].
  cbn [existing_tag_names]. rewrite (getitem_Some _ _ _ Hname), (IH Hrest).
  cbn. change (tag_of t) with (t !! "tag"). by rewrite Hname.
Qed.

Lemma omap_tag_of_filter (P : pydict → Prop) `{!∀ d, Decision (P d)}
    (tags : list pydict) :
  omap tag_of (filter P tags) `sublist_of` omap tag_of tags.
Proof.
  induction tags as [|t rest IH]; [constructor|].
  rewrite filter_cons. cbn [omap list_omap].
  destruct (decide (P t)); cbn [omap list_omap]; destruct (tag_of t).
  - by apply sublist_skip.
  - done.
  - by apply sublist_cons.
  - done.
Qed.

(** X2: the names offered in the selection box are those of the records
    whose lowercased tag contains the lowercased text of the search box, in
    the order of the Record Store; with an empty search box every tag is
    offered. *)
Theorem search_box_names (search_query : string) (tags_data : list pydict) :
  Forall has_tag tags_data →
  ∃ (filtered : list pydict) (names : list string),
    filtered_tags lower tags_data search_query = Ok filtered ∧
    existing_tag_names filtered = Ok names ∧
    names `sublist_of` omap tag_of tags_data ∧
    (∀ name, name ∈ names ↔
             name ∈ omap tag_of tags_data ∧
             occurs (lower search_query) (lower name)) ∧
    (lower "" = "" → search_query = "" → names = omap tag_of tags_data).
Proof.
  intros Hall.
  set (P := λ d : pydict,
         contains (lower search_query) (lower (default "" (tag_of d))) = true).
  assert (Hfil : Forall has_tag (filter P tags_data)).
  { apply Forall_forall. intros d [_ Hd]%list_elem_of_filter.
    rewrite Forall_forall in Hall. by apply Hall. }
  exists (filter P tags_data), (omap tag_of (filter P tags_data)).
  split; [by apply filtered_tags_filter|].
  split; [by apply existing_tag_names_tags|].
  split; [apply omap_tag_of_filter|]. split.
  - intros name. rewrite !list_elem_of_omap. split.
    + intros (d & [HP Hd]%list_elem_of_filter & Hname). split; [by exists d|].
      unfold P in HP. rewrite Hname in HP. by apply contains_occurs.
    + intros [(d & Hd & Hname) Hocc]. exists d. split; [|done].
      apply list_elem_of_filter. split; [|done].
      unfold P. rewrite Hname. by apply contains_occurs.
  - intros Hlow ->. f_equal. apply filter_all. intros d _.
    unfold P. rewrite Hlow.
    destruct (lower (default "" (tag_of d))); reflexivity.
Qed.

Lemma first_with_tag_found (selected_tag : string) (dflt t : pydict)
    (before after : list pydict) :
  Forall has_tag before →
  selected_tag ∉ omap tag_of before →
  t !! "tag" = Some selected_tag →
  first_with_tag (before ++ t :: after) selected_tag dflt = Ok t.
Proof.
  induction before as [|b before IH]; intros Hall Hnin Ht.
  - cbn. rewrite (getitem_Some _ _ _ Ht). cbn. by rewrite bool_decide_eq_true_2.
  - apply Forall_cons_1 in Hall as [[name Hname] Hrest].
    cbn [omap list_omap] in Hnin. change (tag_of b) with (b !! "tag") in Hnin.
    rewrite Hname in Hnin. apply not_elem_of_cons in Hnin as [Hne Hnin].
    cbn [app first_with_tag]. rewrite (getitem_Some _ _ _ Hname). cbn.
    rewrite bool_decide_eq_false_2 by congruence. by apply IH.
Qed.

(** X3: with nothing typed into the new-tag box, selecting a tag puts the
    first record of the Record Store that carries this tag behind the form;
    the records after it are not looked at, so a record without a tag
    further down the list does no harm. *)
Theorem choose_current_selected (new_tag_input selected_tag : string)
    (t : pydict) (before after : list pydict) :
  strip new_tag_input = "" →
  selected_tag ≠ "" →
  Forall has_tag before →
  selected_tag ∉ omap tag_of before →
  t !! "tag" = Some selected_tag →
  choose_current strip new_tag_input selected_tag (before ++ t :: after)
  = Ok (selected_tag, t).
Proof.
  intros Hblank Hsel Hall Hnin Ht. unfold choose_current.
  rewrite bool_decide_eq_false_2 by (intros H; by apply H).
  rewrite bool_decide_eq_true_2 by done.
  by rewrite (first_with_tag_found _ _ _ _ _ Hall Hnin Ht).
Qed.

End Selection.

Lemma choose_current_selected_witness :
  choose_current ascii_strip "  " "b"
    [record_of "a" "1"; record_of "b" "2"; ∅; record_of "b" "3"]
  = Ok ("b", record_of "b" "2").
Proof.
  apply (choose_current_selected ascii_strip "  " "b" (record_of "b" "2")
           [record_of "a" "1"] [∅; record_of "b" "3"]).
  - reflexivity.
  - discriminate.
  - repeat constructor. by eexists.
  - apply (bool_decide_unpack _). vm_compute. exact I.
  - reflexivity.
Defined.

Lemma search_box_names_witness :
  Forall has_tag [record_of "Alpha" ""; record_of "beta" ""; record_of "alps" ""] ∧
  ∃ (filtered : list pydict) (names : list string),
    filtered_tags ascii_lower
      [record_of "Alpha" ""; record_of "beta" ""; record_of "alps" ""] "AL"
    = Ok filtered ∧
    existing_tag_names filtered = Ok names ∧
    names = ["Alpha"; "alps"].
Proof.
  assert (Hall : Forall has_tag
            [record_of "Alpha" ""; record_of "beta" ""; record_of "alps" ""]).
  { repeat constructor; by eexists. }
  split; [exact Hall|].
  destruct (search_box_names ascii_lower "AL" _ Hall)
    as (filtered & names & Hf & Hn & _).
  exists filtered, names. split; [exact Hf|]. split; [exact Hn|].
  vm_compute in Hf. injection Hf as <-.
  vm_compute in Hn. by injection Hn as <-.
Defined.

(** ** Upserts on entries *)

Lemma upserted_ids (es : list (string * string)) (e : string * string) :
  list_to_set (upserted es e).*1 =@{gset string} {[e.1]} ∪ list_to_set es.*1.
Proof.
  unfold upserted. destruct (decide (e.1 ∈ es.*1)) as [Hin|Hnin].
  - rewrite replace_document_ids. apply set_eq. intros id.
    rewrite elem_of_union, elem_of_singleton, elem_of_list_to_set.
    split; [by right|]. intros [->|?]; done.
  - apply set_eq. intros id.
    rewrite fmap_app, elem_of_union, elem_of_singleton, !elem_of_list_to_set.
    change ([e].*1) with [e.1].
    rewrite elem_of_app, list_elem_of_singleton. tauto.
Qed.

Lemma upserted_NoDup (es : list (string * string)) (e : string * string) :
  NoDup es.*1 → NoDup (upserted es e).*1.
Proof.
  intros Hnd. unfold upserted. destruct (decide (e.1 ∈ es.*1)) as [Hin|Hnin].
  - by rewrite replace_document_ids.
  - rewrite fmap_app. apply NoDup_app. split; [done|]. split.
    + by intros id Hid ->%list_elem_of_singleton.
    + apply NoDup_singleton.
Qed.

(** An upsert under an id that [P] rejects is not seen through [P]. *)
Lemma filter_upserted (P : string → Prop) `{!∀ id, Decision (P id)}
    (es : list (string * string)) (e : string * string) :
  ¬ P e.1 →
  filter (λ x, P x.1) (upserted es e) = filter (λ x, P x.1) es.
Proof.
  intros HnP. unfold upserted. destruct (decide (e.1 ∈ es.*1)) as [_|_].
  - unfold replace_document. induction es as [|[i d] es IH]; [reflexivity|].
    rewrite fmap_cons. cbn [fst snd].
    destruct (decide (i = e.1)) as [->|Hne].
    + rewrite !filter_cons_False by done. exact IH.
    + rewrite !filter_cons. cbn [fst]. by rewrite IH.
  - rewrite filter_app, filter_cons_False by done.
    by rewrite filter_nil, app_nil_r.
Qed.

(** After an upsert every entry under the id carries the document. *)
Lemma upserted_documents (es : list (string * string)) (e : string * string) :
  (filter (λ x, x.1 = e.1) (upserted es e)).*2 ≠ [] ∧
  Forall (λ d, d = e.2) (filter (λ x, x.1 = e.1) (upserted es e)).*2.
Proof.
  unfold upserted. destruct (decide (e.1 ∈ es.*1)) as [Hin|Hnin].
  - split.
    + apply stored_documents_nonempty. by rewrite replace_document_ids.
    + apply stored_documents_replaced.
  - rewrite filter_app, filter_cons_True by done. rewrite filter_nil, fmap_app.
    split; [by destruct ((filter _ es).*2)|].
    apply Forall_app. split; [|by repeat constructor].
    replace (filter (λ x, x.1 = e.1) es) with (@nil (string * string));
      [constructor|].
    symmetry. clear -Hnin. induction es as [|[i d] es IH]; [reflexivity|].
    rewrite fmap_cons in Hnin. apply not_elem_of_cons in Hnin as [Hne Hnin].
    rewrite filter_cons_False by (cbn; intros Heq; by apply Hne). by apply IH.
Qed.

Section Handlers.

Variable hash : string → Z.
Variable strip : string → string.

(** What an upsert of a tag record does, by the fate of its requests. *)
Lemma sync_cases (tag_data : pydict) (tag description : string) (w : World) :
  tag_data !! "tag" = Some tag →
  tag_data !! "description" = Some description →
  ∃ (status : string) (w1 : World),
    sync_tag_to_chroma hash tag_data w = (Ok status, w1) ∧
    json_file w1 = json_file w ∧ shown w1 = shown w ∧
    ((∃ msg, (fate 0 w = Some msg ∨ (fate 0 w = None ∧ fate 1 w = Some msg)) ∧
             status = "Error syncing tag '" +:+ tag +:+ "': " +:+ msg ∧
             entries w1 = entries w) ∨
     (fate 0 w = None ∧ fate 1 w = None ∧
      faults w1 = tail (tail (faults w)) ∧
      entries w1 =
        upserted (entries w) (get_tag_id hash tag, entry_text tag_data) ∧
      status =
        if decide (get_tag_id hash tag ∈ store_ids w)
        then "Updated tag '" +:+ tag +:+ "' in ChromaDB"
        else "Added tag '" +:+ tag +:+ "' to ChromaDB")).
Proof.
  intros Htag Hdesc.
  destruct (fate 0 w) as [msg0|] eqn:H0.
  { eexists _, _. split; [exact (sync_get_failed hash _ _ _ Htag Hdesc w msg0 H0)|].
    split; [done|]. split; [done|]. left. exists msg0. split; [by left|done]. }
  destruct (fate 1 w) as [msg1|] eqn:H1.
  { eexists _, _.
    split; [exact (sync_write_failed hash _ _ _ Htag Hdesc w msg1 H0 H1)|].
    split; [done|]. split; [done|]. left. exists msg1. split; [by right|done]. }
  destruct (decide (get_tag_id hash tag ∈ store_ids w)) as [Hin|Hnin].
  - eexists _, _. split; [exact (sync_updated hash _ _ _ Htag Hdesc w H0 H1 Hin)|].
    split; [done|]. split; [done|]. right. repeat split; try done.
    cbn. unfold upserted. cbn [fst snd].
    rewrite decide_True; [done | by apply store_ids_elem].
  - eexists _, _. split; [exact (sync_added hash _ _ _ Htag Hdesc w H0 H1 Hnin)|].
    split; [done|]. split; [done|]. right. repeat split; try done.
    cbn. unfold upserted. cbn [fst snd].
    rewrite decide_False; [done | by rewrite <- store_ids_elem].
Qed.

Lemma save_handler_run
    (current_tag description merge_instruction category : string)
    (tags_data : list pydict) (w : World) :
  current_tag ≠ "" →
  Forall has_tag tags_data →
  save_handler strip true current_tag description merge_instruction category
    tags_data w
  = (Ok (filter (λ d, tag_of d ≠ Some current_tag) tags_data
         ++ [new_entry strip current_tag description merge_instruction category]),
     mkWorld
       (Some (filter (λ d, tag_of d ≠ Some current_tag) tags_data
              ++ [new_entry strip current_tag description merge_instruction
                    category]))
       (entries w) (calls w) (faults w) (shown w)).
Proof.
  intros Hne Hall. unfold save_handler. rewrite bool_decide_eq_true_2 by done.
  cbn [andb]. unfold mbind, M_bind, lift.
  by rewrite (without_tag_filter _ _ Hall).
Qed.

Lemma filter_has_tag (P : pydict → Prop) `{!∀ d, Decision (P d)}
    (tags_data : list pydict) :
  Forall has_tag tags_data → Forall has_tag (filter P tags_data).
Proof.
  rewrite !Forall_forall. intros Hall d [_ Hd]%list_elem_of_filter. by apply Hall.
Qed.

(** X4: a save with an open handle, when the store serves the two
    requests, leaves the two stores in step on the saved tag: the record is
    the last of the Record Store and in the file, its document is stored
    under its id, and the sync status computed from the new stores reports
    the tag as synced. *)
Theorem save_and_sync_in_step
    (current_tag description merge_instruction category : string)
    (tags_data : list pydict) (w : World) :
  current_tag ≠ "" →
  Forall has_tag tags_data →
  fate 0 w = None → fate 1 w = None →
  let entry := new_entry strip current_tag description merge_instruction category in
  let saved := filter (λ d, tag_of d ≠ Some current_tag) tags_data ++ [entry] in
  let tag_id := get_tag_id hash current_tag in
  ∃ (status : string) (w1 : World) (sync_status : gmap string bool),
    save_and_sync hash strip true true current_tag description merge_instruction
      category tags_data w
    = (Ok (mkOutcome saved (Some (Success ("✅ " +:+ status))) true), w1) ∧
    json_file w1 = Some saved ∧
    entries w1 = upserted (entries w) (tag_id, entry_text entry) ∧
    Forall (λ d, d = entry_text entry) (documents_of tag_id w1) ∧
    documents_of tag_id w1 ≠ [] ∧
    check_sync_status hash saved (store_ids w1) = Ok sync_status ∧
    sync_status !! current_tag = Some true.
Proof.
  intros Hne Hall H0 H1 entry saved tag_id.
  unfold save_and_sync. rewrite bool_decide_eq_true_2 by done. cbn [andb].
  unfold mbind at 1, M_bind at 1.
  rewrite (save_handler_run _ _ _ _ _ _ Hne Hall). fold entry. fold saved.
  set (w0 := mkWorld (Some saved) (entries w) (calls w) (faults w) (shown w)).
  destruct (sync_cases entry current_tag (strip description) w0 eq_refl eq_refl)
    as (status & w1 & Hrun & Hjson & _ & [(msg & [Hf|[_ Hf]] & _)|Hok]);
    [change (fate 0 w0) with (fate 0 w) in Hf; congruence
    |change (fate 1 w0) with (fate 1 w) in Hf; congruence|].
  destruct Hok as (_ & _ & _ & Hent & _).
  unfold try_except, mbind, M_bind. rewrite Hrun. cbn.
  assert (Hin : tag_id ∈ store_ids w1).
  { unfold store_ids. rewrite Hent, upserted_ids.
    by apply elem_of_union_l, elem_of_singleton. }
  assert (Hsaved : Forall has_tag saved).
  { apply Forall_app. split; [by apply filter_has_tag|].
    repeat constructor. by eexists. }
  destruct (check_sync_status_from_spec hash (store_ids w1) saved ∅ Hsaved)
    as (m & Hm & Hlook).
  exists status, w1, m. split; [reflexivity|]. split; [by rewrite Hjson|].
  split; [exact Hent|].
  pose proof (upserted_documents (entries w) (tag_id, entry_text entry))
    as [Hdocs Hall_docs].
  unfold documents_of. rewrite Hent.
  split; [exact Hall_docs|]. split; [exact Hdocs|]. split; [exact Hm|].
  rewrite Hlook, decide_True.
  - by rewrite bool_decide_eq_true_2.
  - apply list_elem_of_omap. exists entry. split; [|reflexivity].
    apply elem_of_app. right. apply list_elem_of_here.
Qed.

(** X5: with an open handle the save branch never reaches its [except]:
    whatever the store answers, the record is saved to the file, the
    status of the upsert is shown in a success box, and the script is run
    again.  When a request fails, the box holds the "Error syncing ..."
    status and the Index Store is as before. *)
Theorem save_and_sync_reports_success
    (current_tag description merge_instruction category : string)
    (tags_data : list pydict) (w : World) :
  current_tag ≠ "" →
  Forall has_tag tags_data →
  let entry := new_entry strip current_tag description merge_instruction category in
  let saved := filter (λ d, tag_of d ≠ Some current_tag) tags_data ++ [entry] in
  ∃ (status : string) (w1 : World),
    save_and_sync hash strip true true current_tag description merge_instruction
      category tags_data w
    = (Ok (mkOutcome saved (Some (Success ("✅ " +:+ status))) true), w1) ∧
    json_file w1 = Some saved ∧
    (∀ msg, fate 0 w = Some msg ∨ (fate 0 w = None ∧ fate 1 w = Some msg) →
       status = "Error syncing tag '" +:+ current_tag +:+ "': " +:+ msg ∧
       entries w1 = entries w).
Proof.
  intros Hne Hall entry saved.
  unfold save_and_sync. rewrite bool_decide_eq_true_2 by done. cbn [andb].
  unfold mbind at 1, M_bind at 1.
  rewrite (save_handler_run _ _ _ _ _ _ Hne Hall). fold entry. fold saved.
  set (w0 := mkWorld (Some saved) (entries w) (calls w) (faults w) (shown w)).
  destruct (sync_cases entry current_tag (strip description) w0 eq_refl eq_refl)
    as (status & w1 & Hrun & Hjson & _ & Hcases).
  unfold try_except, mbind, M_bind. rewrite Hrun. cbn.
  exists status, w1. split; [reflexivity|]. split; [by rewrite Hjson|].
  intros msg Hfail.
  destruct Hcases as [(msg' & Hfail' & -> & Hent)|(H0 & H1 & _)].
  - change (fate 0 w0) with (fate 0 w) in Hfail'.
    change (fate 1 w0) with (fate 1 w) in Hfail'.
    split; [|exact Hent].
    destruct Hfail as [Hf|[Hf0 Hf1]], Hfail' as [Hf'|[Hf0' Hf1']]; congruence.
  - change (fate 0 w0) with (fate 0 w) in H0.
    change (fate 1 w0) with (fate 1 w) in H1.
    destruct Hfail as [Hf|[_ Hf]]; congruence.
Qed.

End Handlers.

(** ** Deleting a tag *)

Lemma filter_twice_tag (current_tag : string) (tags_data : list pydict) :
  filter (λ d, tag_of d ≠ Some current_tag)
    (filter (λ d, tag_of d ≠ Some current_tag) tags_data)
  = filter (λ d, tag_of d ≠ Some current_tag) tags_data.
Proof. apply list_filter_filter_l. tauto. Qed.

Lemma tag_gone (current_tag : string) (tags_data : list pydict) :
  current_tag ∉ omap tag_of (filter (λ d, tag_of d ≠ Some current_tag) tags_data).
Proof.
  intros (d & [Hne _]%list_elem_of_filter & Hd)%list_elem_of_omap. by apply Hne.
Qed.

Section Deletion.

Variable hash : string → Z.
Variable strip : string → string.

Lemma delete_handler_run (db : bool) (current_tag selected_tag : string)
    (tags_data : list pydict) (w : World) :
  current_tag ≠ "" → selected_tag ≠ "" →
  Forall has_tag tags_data →
  let kept := filter (λ d, tag_of d ≠ Some current_tag) tags_data in
  let w0 := mkWorld (Some kept) (entries w) (calls w) (faults w) (shown w) in
  delete_handler hash db true current_tag selected_tag tags_data w =
    if db then
      (Ok (mkOutcome kept
             (Some (Success ("✅ Deleted '" +:+ current_tag +:+
                             "' from both JSON and ChromaDB"))) true),
       (remove_tag_from_chroma hash current_tag w0).2)
    else
      (Ok (mkOutcome kept
             (Some (Warning ("⚠️ Deleted '" +:+ current_tag +:+
                             "' from JSON, but ChromaDB is not available")))
             false), w0).
Proof.
  intros Hcur Hsel Hall kept w0. unfold delete_handler.
  rewrite !bool_decide_eq_true_2 by done. cbn [andb].
  unfold mbind at 1, M_bind at 1, lift.
  rewrite (without_tag_filter _ _ Hall). fold kept.
  unfold mbind at 1, M_bind at 1, save_tags. fold w0.
  destruct db; [|reflexivity].
  destruct (remove_tag_from_chroma_returns hash current_tag w0)
    as (status & w1 & Hrun & _).
  unfold try_except, mbind, M_bind. by rewrite Hrun.
Qed.

Lemma delete_handler_returns (db : bool) (current_tag selected_tag : string)
    (tags_data : list pydict) (w : World) :
  current_tag ≠ "" → selected_tag ≠ "" →
  Forall has_tag tags_data →
  ∃ (out : Outcome) (w1 : World),
    delete_handler hash db true current_tag selected_tag tags_data w = (Ok out, w1) ∧
    new_tags_data out = filter (λ d, tag_of d ≠ Some current_tag) tags_data ∧
    json_file w1 = Some (new_tags_data out).
Proof.
  intros Hcur Hsel Hall.
  rewrite (delete_handler_run db _ _ _ w Hcur Hsel Hall). cbv zeta.
  destruct db.
  - eexists _, _. split; [reflexivity|]. split; [reflexivity|].
    unfold remove_tag_from_chroma, try_except, mbind, M_bind, db_delete, request.
    cbn. by destruct (faults w) as [|[msg|] fs].
  - by eexists _, _.
Qed.

(** X6: deleting a tag removes from the Record Store, and from the file,
    every record that carries the tag and nothing else: the other records
    stay, in their order, no record with the tag is left, and a second
    deletion of the same tag changes nothing.  This holds with or without
    a handle and whatever the Index Store answers. *)
Theorem delete_handler_record_store (db : bool)
    (current_tag selected_tag : string) (tags_data : list pydict) (w : World) :
  current_tag ≠ "" → selected_tag ≠ "" →
  Forall has_tag tags_data →
  ∃ (out : Outcome) (w1 : World),
    delete_handler hash db true current_tag selected_tag tags_data w = (Ok out, w1) ∧
    new_tags_data out = filter (λ d, tag_of d ≠ Some current_tag) tags_data ∧
    json_file w1 = Some (new_tags_data out) ∧
    (current_tag ∉ omap tag_of (new_tags_data out)) ∧
    ∃ (out2 : Outcome) (w2 : World),
      delete_handler hash db true current_tag selected_tag (new_tags_data out) w1
      = (Ok out2, w2) ∧
      new_tags_data out2 = new_tags_data out.
Proof.
  intros Hcur Hsel Hall.
  destruct (delete_handler_returns db _ _ _ w Hcur Hsel Hall)
    as (out & w1 & Hrun1 & Hnew & Hjson).
  exists out, w1. split; [exact Hrun1|]. split; [exact Hnew|].
  split; [exact Hjson|]. split; [rewrite Hnew; apply tag_gone|].
  destruct (delete_handler_returns db current_tag selected_tag
              (new_tags_data out) w1 Hcur Hsel)
    as (out2 & w2 & Hrun2 & Hnew2 & _).
  { rewrite Hnew. by apply filter_has_tag. }
  exists out2, w2. split; [exact Hrun2|].
  by rewrite Hnew2, Hnew, filter_twice_tag.
Qed.

(** X7: with an open handle the delete branch shows "Deleted ... from both
    JSON and ChromaDB" and runs the script again whatever the Index Store
    answered, because the status returned by [remove_tag_from_chroma] is
    not looked at.  When the delete request is served, the id is gone from
    the Index Store; when it fails, the entries are as before, so an entry
    under the id stays behind while its record is gone. *)
Theorem delete_handler_reports_success
    (current_tag selected_tag : string) (tags_data : list pydict) (w : World) :
  current_tag ≠ "" → selected_tag ≠ "" →
  Forall has_tag tags_data →
  let tag_id := get_tag_id hash current_tag in
  ∃ (out : Outcome) (w1 : World),
    delete_handler hash true true current_tag selected_tag tags_data w
    = (Ok out, w1) ∧
    said out = Some (Success ("✅ Deleted '" +:+ current_tag +:+
                              "' from both JSON and ChromaDB")) ∧
    reran out = true ∧
    calls w1 = calls w ++ [CallDelete [tag_id]] ∧
    (fate 0 w = None →
       entries w1 = filter (λ e, e.1 ≠ tag_id) (entries w) ∧
       tag_id ∉ store_ids w1) ∧
    (∀ msg, fate 0 w = Some msg →
       entries w1 = entries w ∧
       (tag_id ∈ store_ids w → tag_id ∈ store_ids w1) ∧
       current_tag ∉ omap tag_of (new_tags_data out)).
Proof.
  intros Hcur Hsel Hall tag_id.
  rewrite (delete_handler_run true _ _ _ w Hcur Hsel Hall). cbv zeta.
  set (w0 := mkWorld _ (entries w) (calls w) (faults w) (shown w)).
  destruct (remove_tag_from_chroma_returns hash current_tag w0)
    as (status & w1 & Hrun & Hcalls & Hserved & Hfailed & _).
  rewrite Hrun. cbn [snd].
  eexists _, w1. split; [reflexivity|]. split; [reflexivity|].
  split; [reflexivity|]. split; [exact Hcalls|]. split.
  - intros H0. destruct (Hserved H0) as [_ Hent]. split; [exact Hent|].
    by apply (removed_absent _ w0).
  - intros msg H0. destruct (Hfailed msg H0) as [_ Hent].
    split; [exact Hent|]. split.
    + intros Hin. apply store_ids_elem. rewrite Hent. by apply store_ids_elem.
    + apply tag_gone.
Qed.

(** X8: the delete button acts on the current tag, and a name typed into
    the new-tag box is the current tag even when another tag is selected:
    the records of the typed name are deleted and those of the selected tag
    stay. *)
Theorem delete_acts_on_typed_name (db : bool)
    (new_tag_input selected_tag : string) (tags_data : list pydict) (w : World) :
  strip new_tag_input ≠ "" → selected_tag ≠ "" →
  Forall has_tag tags_data →
  ∃ (tag_data : pydict) (out : Outcome) (w1 : World),
    choose_current strip new_tag_input selected_tag tags_data
    = Ok (strip new_tag_input, tag_data) ∧
    delete_handler hash db true (strip new_tag_input) selected_tag tags_data w
    = (Ok out, w1) ∧
    new_tags_data out
    = filter (λ d, tag_of d ≠ Some (strip new_tag_input)) tags_data ∧
    (selected_tag ≠ strip new_tag_input →
       filter (λ d, tag_of d = Some selected_tag) (new_tags_data out)
       = filter (λ d, tag_of d = Some selected_tag) tags_data).
Proof.
  intros Hnew Hsel Hall.
  destruct (delete_handler_returns db (strip new_tag_input) selected_tag
              tags_data w Hnew Hsel Hall)
    as (out & w1 & Hrun & Hout & _).
  exists (blank_record (strip new_tag_input)), out, w1. split.
  { unfold choose_current. by rewrite bool_decide_eq_true_2. }
  split; [exact Hrun|]. split; [exact Hout|].
  intros Hne. rewrite Hout, list_filter_filter. apply list_filter_iff.
  intros d. split; [tauto|]. intros Hd. split; [done|]. congruence.
Qed.

End Deletion.

(** ** Sync All Tags *)

Lemma foldl_upserted_ids (ps es : list (string * string)) :
  list_to_set (foldl upserted es ps).*1
  =@{gset string} list_to_set es.*1 ∪ list_to_set ps.*1.
Proof.
  revert es. induction ps as [|p ps IH]; intros es.
  - cbn. by rewrite (right_id_L ∅ (∪)).
  - cbn [foldl]. rewrite IH, upserted_ids, fmap_cons, list_to_set_cons.
    apply set_eq. intros id. rewrite !elem_of_union. tauto.
Qed.

Lemma foldl_upserted_NoDup (ps es : list (string * string)) :
  NoDup es.*1 → NoDup (foldl upserted es ps).*1.
Proof.
  revert es. induction ps as [|p ps IH]; intros es Hnd; [done|].
  cbn [foldl]. by apply IH, upserted_NoDup.
Qed.

Lemma foldl_upserted_filter (P : string → Prop) `{!∀ id, Decision (P id)}
    (ps es : list (string * string)) :
  Forall (λ p, ¬ P p.1) ps →
  filter (λ x, P x.1) (foldl upserted es ps) = filter (λ x, P x.1) es.
Proof.
  revert es. induction ps as [|p ps IH]; intros es Hall; [done|].
  apply Forall_cons_1 in Hall as [Hp Hps].
  cbn [foldl]. rewrite (IH _ Hps). by apply filter_upserted.
Qed.

(** The last upsert under an id decides the document stored under it. *)
Lemma foldl_upserted_last (pre post es : list (string * string))
    (p : string * string) :
  p.1 ∉ post.*1 →
  (filter (λ x, x.1 = p.1) (foldl upserted es (pre ++ p :: post))).*2 ≠ [] ∧
  Forall (λ d, d = p.2)
    (filter (λ x, x.1 = p.1) (foldl upserted es (pre ++ p :: post))).*2.
Proof.
  intros Hlast. rewrite foldl_app. cbn [foldl].
  assert (Hpost : Forall (λ q : string * string, ¬ q.1 = p.1) post).
  { apply Forall_forall. intros q Hq Heq. apply Hlast.
    apply list_elem_of_fmap. by exists q. }
  pose proof (foldl_upserted_filter (λ id, id = p.1) post
                (upserted (foldl upserted es pre) p) Hpost) as Hsame.
  cbv beta in Hsame. rewrite Hsame. apply upserted_documents.
Qed.

Lemma always_served_later (w w1 : World) :
  always_served w → faults w1 = tail (tail (faults w)) → always_served w1.
Proof.
  intros Hserved Hfaults n. specialize (Hserved (S (S n))).
  unfold fate in *. by rewrite Hfaults, !lookup_tail.
Qed.

Section SyncAll.

Variable hash : string → Z.

Lemma upsert_of_ids (tags_data : list pydict) :
  Forall has_tag tags_data →
  (upsert_of hash <$> tags_data).*1 = get_tag_id hash <$> omap tag_of tags_data.
Proof.
  induction tags_data as [|d rest IH]; intros Hall; [reflexivity|].
  apply Forall_cons_1 in Hall as [[name Hname] Hrest].
  rewrite !fmap_cons. cbn [omap list_omap]. unfold upsert_of at 1. cbn [fst].
  change (tag_of d) with (d !! "tag"). rewrite Hname. cbn.
  by rewrite <- (IH Hrest).
Qed.

Lemma is_tag_record_has_tag (tags_data : list pydict) :
  Forall is_tag_record tags_data → Forall has_tag tags_data.
Proof. intros Hall. eapply Forall_impl; [exact Hall|]. by intros d [? _]. Qed.

(** One turn of the loop on a record that cannot be formatted. *)
Lemma sync_raises_missing_description (d : pydict) (name : string) (w : World) :
  d !! "tag" = Some name → d !! "description" = None →
  sync_tag_to_chroma hash d w = (Raise (KeyError "description"), w).
Proof.
  intros Hname Hdesc. unfold sync_tag_to_chroma. run_monad.
  rewrite (getitem_Some _ _ _ Hname). cbv beta iota.
  unfold format_entry. rewrite (getitem_Some _ _ _ Hname). cbn.
  by rewrite (getitem_None _ _ Hdesc).
Qed.

Lemma sync_all_loop_served (tags_data : list pydict) (w : World) :
  Forall is_tag_record tags_data →
  always_served w →
  ∃ w1 : World,
    sync_all_loop hash tags_data w = (Ok tt, w1) ∧
    entries w1 = foldl upserted (entries w) (upsert_of hash <$> tags_data) ∧
    always_served w1 ∧ shown w1 = shown w ∧ json_file w1 = json_file w.
Proof.
  revert w. induction tags_data as [|d rest IH]; intros w Hall Hserved.
  - by exists w.
  - apply Forall_cons_1 in Hall as [[[name Hname] [desc Hdesc]] Hrest].
    destruct (sync_cases hash d name desc w Hname Hdesc)
      as (status & w1 & Hrun & Hjson & Hshown & [(msg & Hfail & _)|Hok]).
    { rewrite !Hserved in Hfail. by destruct Hfail as [?|[_ ?]]. }
    destruct Hok as (_ & _ & Hfaults & Hent & _).
    destruct (IH w1 Hrest (always_served_later _ _ Hserved Hfaults))
      as (w2 & Hrun2 & Hent2 & Hserved2 & Hshown2 & Hjson2).
    exists w2. cbn [sync_all_loop].
    unfold mbind at 1, M_bind at 1, try_except at 1.
    unfold mbind at 1, M_bind at 1. rewrite Hrun. cbn [mret M_ret].
    split; [exact Hrun2|]. split.
    + rewrite Hent2, Hent, fmap_cons. cbn [foldl].
      replace (upsert_of hash d) with (get_tag_id hash name, entry_text d);
        [reflexivity|].
      unfold upsert_of. change (tag_of d) with (d !! "tag"). by rewrite Hname.
    + split; [exact Hserved2|]. split; congruence.
Qed.

(** X9: when every request is served, "Sync All Tags" on well-formed
    records ends with its success notice and leaves every tag of the
    Record Store synced: the ids present are those present before together
    with the expected ones, and the sync status computed afterwards is true
    for every tag.  It deletes nothing: the entries under ids that no
    record derives, the orphans included, are as before; and it never makes
    two entries share an id. *)
Theorem sync_all_syncs_every_tag (tags_data : list pydict) (w : World) :
  Forall is_tag_record tags_data →
  always_served w →
  let E := expected_ids hash tags_data in
  ∃ (w1 : World) (sync_status : gmap string bool),
    sync_all hash tags_data w = (Ok (Success "✅ All tags synced!"), w1) ∧
    store_ids w1 = store_ids w ∪ E ∧
    filter (λ e, e.1 ∉ E) (entries w1) = filter (λ e, e.1 ∉ E) (entries w) ∧
    (NoDup (entries w).*1 → NoDup (entries w1).*1) ∧
    check_sync_status hash tags_data (store_ids w1) = Ok sync_status ∧
    dom sync_status = list_to_set (omap tag_of tags_data) ∧
    (∀ name b, sync_status !! name = Some b → b = true).
Proof.
  intros Hall Hserved E.
  pose proof (is_tag_record_has_tag _ Hall) as Htags.
  destruct (sync_all_loop_served tags_data w Hall Hserved)
    as (w1 & Hrun & Hent & _ & _ & _).
  destruct (check_sync_status_from_spec hash (store_ids w1) tags_data ∅ Htags)
    as (m & Hm & Hlook).
  assert (Hids : store_ids w1 = store_ids w ∪ E).
  { unfold store_ids, E, expected_ids.
    by rewrite Hent, foldl_upserted_ids, (upsert_of_ids _ Htags). }
  exists w1, m. split.
  { unfold sync_all, mbind, M_bind. by rewrite Hrun. }
  split; [exact Hids|]. split.
  { assert (Hin : Forall (λ p : string * string, ¬ (p.1 ∉ E))
                     (upsert_of hash <$> tags_data)).
    { apply Forall_forall. intros p Hp Hnot. apply Hnot.
      unfold E, expected_ids. rewrite <- (upsert_of_ids _ Htags).
      apply elem_of_list_to_set, list_elem_of_fmap. by exists p. }
    pose proof (foldl_upserted_filter (λ id, id ∉ E) _ (entries w) Hin) as Hsame.
    cbv beta in Hsame. rewrite Hent. exact Hsame. }
  split; [intros Hnd; rewrite Hent; by apply foldl_upserted_NoDup|].
  split; [exact Hm|]. split.
  - apply set_eq. intros name.
    rewrite elem_of_dom, elem_of_list_to_set, Hlook.
    case_decide as Hd.
    + split; [done | by eexists].
    + split; [|done]. rewrite lookup_empty. by intros [? ?].
  - intros name b. rewrite Hlook.
    case_decide as Hd; [|by rewrite lookup_empty].
    intros [= <-]. apply bool_decide_eq_true_2. rewrite Hids.
    apply elem_of_union_r. unfold E, expected_ids.
    by apply elem_of_list_to_set, list_elem_of_fmap_2.
Qed.

(** X10: in "Sync All Tags" the last record that derives an id decides the
    document stored under it: when no later record has the same id (be it
    through the same tag or through a collision of the hash), every entry
    under the id of a record carries the document of that record. *)
Theorem sync_all_last_record_wins
    (pre post : list pydict) (d : pydict) (name : string) (w : World) :
  Forall is_tag_record (pre ++ d :: post) →
  always_served w →
  d !! "tag" = Some name →
  get_tag_id hash name ∉ get_tag_id hash <$> omap tag_of post →
  ∃ (n : notice) (w1 : World),
    sync_all hash (pre ++ d :: post) w = (Ok n, w1) ∧
    documents_of (get_tag_id hash name) w1 ≠ [] ∧
    Forall (λ doc, doc = entry_text d) (documents_of (get_tag_id hash name) w1).
Proof.
  intros Hall Hserved Hname Hlast.
  destruct (sync_all_loop_served _ w Hall Hserved) as (w1 & Hrun & Hent & _).
  eexists _, w1. split.
  { unfold sync_all, mbind, M_bind. by rewrite Hrun. }
  assert (Hpost : Forall has_tag post).
  { apply is_tag_record_has_tag.
    apply Forall_app in Hall as [_ Hall]. by apply Forall_cons_1 in Hall as [_ ?]. }
  assert (Hp : upsert_of hash d = (get_tag_id hash name, entry_text d)).
  { unfold upsert_of. change (tag_of d) with (d !! "tag"). by rewrite Hname. }
  unfold documents_of. rewrite Hent, fmap_app, fmap_cons, Hp.
  apply (foldl_upserted_last _ _ _ (get_tag_id hash name, entry_text d)).
  cbn [fst]. by rewrite (upsert_of_ids _ Hpost).
Qed.

(** X11: a record without a description does not stop "Sync All Tags": its
    upsert raises before any request is sent, the loop shows
    "Failed to sync <tag>: 'description'" and goes on with the records that
    follow, on a world that differs in that message only. *)
Theorem sync_all_skips_missing_description
    (d : pydict) (name : string) (rest : list pydict) (w : World) :
  d !! "tag" = Some name → d !! "description" = None →
  sync_all_loop hash (d :: rest) w =
    sync_all_loop hash rest
      (mkWorld (json_file w) (entries w) (calls w) (faults w)
         (shown w ++ ["Failed to sync " +:+ name +:+ ": 'description'"])).
Proof.
  intros Hname Hdesc. cbn [sync_all_loop].
  unfold mbind at 1, M_bind at 1, try_except at 1.
  unfold mbind at 1, M_bind at 1.
  rewrite (sync_raises_missing_description _ _ _ Hname Hdesc).
  unfold mbind, M_bind, lift. by rewrite (getitem_Some _ _ _ Hname).
Qed.

(** X13: on well-formed records "Sync All Tags" shows its success notice
    and no error whatever the Index Store answers, because the status each
    upsert returns is dropped.  When the store is down, so that each of the
    next requests fails, one per record, the loop has sent one [get] per
    record, in the order of the records, and the Index Store is as before
    all the same. *)
Theorem sync_all_hides_failures (tags_data : list pydict) (w : World) :
  Forall is_tag_record tags_data →
  ∃ w1 : World,
    sync_all hash tags_data w = (Ok (Success "✅ All tags synced!"), w1) ∧
    shown w1 = shown w ∧
    ((∀ n, (n < length tags_data)%nat → is_Some (fate n w)) →
       entries w1 = entries w ∧
       calls w1 =
         calls w ++ ((λ name, CallGet (Some [get_tag_id hash name]))
                       <$> omap tag_of tags_data)).
Proof.
  intros Hall.
  assert (Hloop :
    ∃ w1, sync_all_loop hash tags_data w = (Ok tt, w1) ∧
          shown w1 = shown w ∧
          ((∀ n, (n < length tags_data)%nat → is_Some (fate n w)) →
             entries w1 = entries w ∧
             calls w1 =
               calls w ++ ((λ name, CallGet (Some [get_tag_id hash name]))
                             <$> omap tag_of tags_data))).
  { revert w. induction tags_data as [|d rest IH]; intros w.
    { exists w. split; [reflexivity|]. split; [reflexivity|].
      intros _. split; [reflexivity|]. cbn. by rewrite app_nil_r. }
    apply Forall_cons_1 in Hall as [[[name Hname] [desc Hdesc]] Hrest].
    destruct (sync_cases hash d name desc w Hname Hdesc)
      as (status & w1 & Hrun & _ & Hshown & _).
    destruct (IH Hrest w1) as (w2 & Hrun2 & Hshown2 & Hfail2).
    exists w2. cbn [sync_all_loop].
    unfold mbind at 1, M_bind at 1, try_except at 1.
    unfold mbind at 1, M_bind at 1. rewrite Hrun. cbn [mret M_ret].
    split; [exact Hrun2|]. split; [congruence|].
    intros Hdown. destruct (Hdown 0%nat) as [msg H0]; [cbn; lia|].
    rewrite (sync_get_failed hash _ _ _ Hname Hdesc w msg H0) in Hrun.
    injection Hrun as _ <-.
    destruct Hfail2 as [Hent2 Hcalls2].
    { intros n Hn. rewrite fate_sent. apply Hdown. cbn. lia. }
    split; [by rewrite Hent2|].
    rewrite Hcalls2. cbn [calls sent omap list_omap].
    change (tag_of d) with (d !! "tag"). rewrite Hname.
    cbn [fmap list_fmap]. by rewrite <- app_assoc. }
  destruct Hloop as (w1 & Hrun & Hshown & Hfail).
  exists w1. split; [|by split].
  unfold sync_all, mbind, M_bind. by rewrite Hrun.
Qed.

End SyncAll.

(** ** Repairing the Index Store *)

Lemma filter_False {A : Type} (l : list A) : filter (λ _ : A, False) l = [].
Proof.
  induction l as [|x l IH]; [done|].
  rewrite filter_cons_False; [exact IH | tauto].
Qed.

Section Repair.

Variable hash : string → Z.

Lemma expected_ids_of_expected (tags_data : list pydict) :
  Forall has_tag tags_data →
  expected_ids_of hash tags_data = Ok (expected_ids hash tags_data).
Proof.
  induction tags_data as [|tag rest IH]; intros Hall; [reflexivity|].
  apply Forall_cons_1 in Hall as [[name Hname] Hrest].
  cbn [expected_ids_of]. rewrite (getitem_Some _ _ _ Hname), (IH Hrest).
  unfold expected_ids. cbn [omap list_omap].
  change (tag_of tag) with (tag !! "tag"). by rewrite Hname.
Qed.

(** What the clean-up does to the entries when its requests are served. *)
Lemma clean_orphaned_served (tags_data : list pydict) (w : World) :
  Forall has_tag tags_data →
  fate 0 w = None → fate 1 w = None →
  ∃ (status : string) (w1 : World),
    clean_orphaned_chroma_entries hash true tags_data w = (Ok status, w1) ∧
    entries w1 = filter (λ e, e.1 ∈ expected_ids hash tags_data) (entries w).
Proof.
  intros Hall H0 H1. set (E := expected_ids hash tags_data).
  unfold clean_orphaned_chroma_entries. cbn [negb]. run_monad.
  rewrite (expected_ids_of_expected _ Hall). cbv beta iota.
  rewrite (db_get_served _ _ H0). cbv beta iota. cbn [select res_ids].
  fold (store_ids w). fold E.
  rewrite <- fate_sent with (c := CallGet None) in H1.
  destruct (decide (store_ids w ∖ E = ∅)) as [Hnone|Hsome].
  - rewrite bool_decide_eq_false_2 by (intros H; by apply H).
    eexists _, _. split; [reflexivity|]. cbn. symmetry.
    apply filter_all. intros [id doc] Hin. cbn.
    destruct (decide (id ∈ E)) as [|HnE]; [done|].
    assert (id ∈ store_ids w ∖ E) as Hbad; [|by rewrite Hnone in Hbad].
    apply elem_of_difference. split; [|done].
    apply elem_of_store_ids. by exists doc.
  - rewrite bool_decide_eq_true_2 by done.
    rewrite (db_delete_served _ _ H1). cbv beta iota.
    eexists _, _. split; [reflexivity|]. cbn.
    apply filter_agree. intros [id doc] Hin. cbn.
    rewrite elem_of_elements, elem_of_difference.
    assert (id ∈ store_ids w) by (apply elem_of_store_ids; by exists doc).
    destruct (decide (id ∈ E)); tauto.
Qed.

(** X14: "Sync All Tags" followed by "Clean Orphaned Entries" repairs the
    Index Store: when every request is served and the records are well
    formed, the ids in the Index Store are exactly those derived from the
    tags of the Record Store, whatever the collection held before. *)
Theorem sync_all_then_clean_repairs (tags_data : list pydict) (w : World) :
  Forall is_tag_record tags_data →
  always_served w →
  ∃ (n : notice) (w1 : World) (status : string) (w2 : World),
    sync_all hash tags_data w = (Ok n, w1) ∧
    clean_orphaned_chroma_entries hash true tags_data w1 = (Ok status, w2) ∧
    store_ids w2 = expected_ids hash tags_data ∧
    (NoDup (entries w).*1 → NoDup (entries w2).*1).
Proof.
  intros Hall Hserved.
  pose proof (is_tag_record_has_tag _ Hall) as Htags.
  destruct (sync_all_loop_served hash tags_data w Hall Hserved)
    as (w1 & Hrun & Hent & Hserved1 & _).
  destruct (clean_orphaned_served tags_data w1 Htags (Hserved1 0) (Hserved1 1))
    as (status & w2 & Hclean & Hent2).
  eexists _, w1, status, w2. split.
  { unfold sync_all, mbind, M_bind. by rewrite Hrun. }
  split; [exact Hclean|]. split.
  - unfold store_ids. rewrite Hent2, store_ids_filter, Hent, foldl_upserted_ids.
    rewrite (upsert_of_ids _ _ Htags). fold (expected_ids hash tags_data).
    apply set_eq. intros id. rewrite elem_of_intersection, elem_of_union. tauto.
  - intros Hnd. rewrite Hent2.
    assert (Hnd1 : NoDup (entries w1).*1).
    { rewrite Hent. by apply foldl_upserted_NoDup. }
    revert Hnd1. generalize (entries w1). intros es Hes.
    induction es as [|[i d] es IH]; [constructor|].
    rewrite fmap_cons in Hes. apply NoDup_cons in Hes as [Hi Hes].
    rewrite filter_cons. cbn [fst]. case_decide; [|by apply IH].
    rewrite fmap_cons. apply NoDup_cons. split; [|by apply IH].
    intros (e & He & [_ Hin]%list_elem_of_filter)%list_elem_of_fmap.
    apply Hi. apply list_elem_of_fmap. by exists e.
Qed.

End Repair.

(** ** How the operations compose *)

Section UpsertRemove.

Variable hash : string → Z.

(** X16: an upsert followed by the removal of the same tag, both served,
    leaves the Index Store without the id and with every other entry as it
    was before the upsert; a [get] for the id then returns no id. *)
Theorem sync_then_remove
    (tag_data : pydict) (name description : string) (w : World) :
  tag_data !! "tag" = Some name →
  tag_data !! "description" = Some description →
  fate 0 w = None → fate 1 w = None → fate 2 w = None →
  let tag_id := get_tag_id hash name in
  ∃ (status1 : string) (w1 : World) (status2 : string) (w2 : World),
    sync_tag_to_chroma hash tag_data w = (Ok status1, w1) ∧
    remove_tag_from_chroma hash name w1 = (Ok status2, w2) ∧
    entries w2 = filter (λ e, e.1 ≠ tag_id) (entries w) ∧
    (tag_id ∉ store_ids w2) ∧
    select (Some [tag_id]) (entries w2) = [].
Proof.
  intros Hname Hdesc H0 H1 H2 tag_id.
  destruct (sync_cases hash tag_data name description w Hname Hdesc)
    as (status1 & w1 & Hrun1 & _ & _ & [(msg & Hfail & _)|Hok]).
  { destruct Hfail as [?|[_ ?]]; congruence. }
  destruct Hok as (_ & _ & Hfaults & Hent & _).
  assert (H0' : fate 0 w1 = None).
  { unfold fate in *. by rewrite Hfaults, !lookup_tail. }
  destruct (remove_tag_from_chroma_returns hash name w1)
    as (status2 & w2 & Hrun2 & _ & Hserved & _).
  destruct (Hserved H0') as [_ Hent2].
  assert (Hfinal : entries w2 = filter (λ e, e.1 ≠ tag_id) (entries w)).
  { rewrite Hent2, Hent.
    pose proof (filter_upserted (λ id, id ≠ tag_id) (entries w)
                  (tag_id, entry_text tag_data)) as Hsame.
    cbv beta in Hsame. apply Hsame. cbn. by intros H. }
  exists status1, w1, status2, w2.
  split; [exact Hrun1|]. split; [exact Hrun2|]. split; [exact Hfinal|].
  split; [by apply (removed_absent _ w)|].
  unfold select. rewrite Hfinal, list_filter_filter.
  transitivity (filter (λ _ : string * string, False) (entries w)).
  - apply list_filter_iff. intros e. rewrite list_elem_of_singleton. tauto.
  - apply filter_False.
Qed.

End UpsertRemove.

Section Composition.

Variable hash : string → Z.
Variable strip : string → string.

Lemma saved_again (current_tag : string) (entry : pydict)
    (tags_data : list pydict) :
  tag_of entry = Some current_tag →
  filter (λ d, tag_of d ≠ Some current_tag)
    (filter (λ d, tag_of d ≠ Some current_tag) tags_data ++ [entry])
  = filter (λ d, tag_of d ≠ Some current_tag) tags_data.
Proof.
  intros Hentry. rewrite filter_app, filter_twice_tag.
  rewrite filter_cons_False by (intros H; by apply H).
  by rewrite filter_nil, app_nil_r.
Qed.

(** X17: saving the same form twice leaves the Record Store as saving it
    once: the second save removes the record the first one appended and
    appends it again, so no tag is ever duplicated by saving. *)
Theorem save_handler_twice
    (current_tag description merge_instruction category : string)
    (tags_data : list pydict) (w : World) :
  current_tag ≠ "" →
  Forall has_tag tags_data →
  ∃ (saved : list pydict) (w1 w2 : World),
    save_handler strip true current_tag description merge_instruction category
      tags_data w = (Ok saved, w1) ∧
    save_handler strip true current_tag description merge_instruction category
      saved w1 = (Ok saved, w2) ∧
    json_file w2 = Some saved ∧
    length (filter (λ d, tag_of d = Some current_tag) saved) = 1%nat.
Proof.
  intros Hne Hall.
  set (entry := new_entry strip current_tag description merge_instruction category).
  set (saved := filter (λ d, tag_of d ≠ Some current_tag) tags_data ++ [entry]).
  assert (Hsaved : Forall has_tag saved).
  { apply Forall_app. split; [by apply filter_has_tag|].
    repeat constructor. by eexists. }
  assert (Hagain : filter (λ d, tag_of d ≠ Some current_tag) saved ++ [entry]
                   = saved).
  { unfold saved at 1. by rewrite (saved_again _ entry). }
  exists saved,
    (mkWorld (Some saved) (entries w) (calls w) (faults w) (shown w)),
    (mkWorld (Some saved) (entries w) (calls w) (faults w) (shown w)).
  split; [exact (save_handler_run strip _ _ _ _ _ w Hne Hall)|].
  split.
  { rewrite (save_handler_run strip _ _ _ _ _ _ Hne Hsaved).
    fold entry. by rewrite Hagain. }
  split; [reflexivity|].
  unfold saved. rewrite filter_app, filter_excluded.
  by rewrite filter_cons_True.
Qed.

(** X18: saving a new tag and then deleting it gives back the Record Store
    as it was: when no record carried the tag, the list after the save and
    the delete is the prior list, and so is the file. *)
Theorem save_then_delete_restores (db : bool)
    (current_tag selected_tag description merge_instruction category : string)
    (tags_data : list pydict) (w : World) :
  current_tag ≠ "" → selected_tag ≠ "" →
  Forall has_tag tags_data →
  current_tag ∉ omap tag_of tags_data →
  ∃ (saved : list pydict) (w1 : World) (out : Outcome) (w2 : World),
    save_handler strip true current_tag description merge_instruction category
      tags_data w = (Ok saved, w1) ∧
    delete_handler hash db true current_tag selected_tag saved w1 = (Ok out, w2) ∧
    new_tags_data out = tags_data ∧
    json_file w2 = Some tags_data.
Proof.
  intros Hne Hsel Hall Hnew.
  set (entry := new_entry strip current_tag description merge_instruction category).
  set (saved := filter (λ d, tag_of d ≠ Some current_tag) tags_data ++ [entry]).
  assert (Hsaved : Forall has_tag saved).
  { apply Forall_app. split; [by apply filter_has_tag|].
    repeat constructor. by eexists. }
  destruct (delete_handler_returns hash db current_tag selected_tag saved
              (mkWorld (Some saved) (entries w) (calls w) (faults w) (shown w))
              Hne Hsel Hsaved)
    as (out & w2 & Hrun & Hout & Hjson).
  assert (Hback : new_tags_data out = tags_data).
  { rewrite Hout. unfold saved. rewrite (saved_again _ entry) by reflexivity.
    apply filter_all. intros d Hd Heq. apply Hnew.
    apply list_elem_of_omap. by exists d. }
  exists saved,
    (mkWorld (Some saved) (entries w) (calls w) (faults w) (shown w)), out, w2.
  split; [exact (save_handler_run strip _ _ _ _ _ w Hne Hall)|].
  split; [exact Hrun|]. split; [exact Hback|]. by rewrite Hjson, Hback.
Qed.

End Composition.

(** ** The sidebar: categories and the analysis of the collection *)

Lemma string_compare_trans (s1 s2 s3 : string) :
  String.compare s1 s2 ≠ Gt → String.compare s2 s3 ≠ Gt →
  String.compare s1 s3 ≠ Gt.
Proof.
  revert s2 s3.
  induction s1 as [|a s1 IH]; intros [|b s2] [|c s3]; cbn; try done.
  unfold Ascii.compare.
  destruct (N.compare_spec (N_of_ascii a) (N_of_ascii b)) as [Hab|Hab|Hab];
  destruct (N.compare_spec (N_of_ascii b) (N_of_ascii c)) as [Hbc|Hbc|Hbc];
  destruct (N.compare_spec (N_of_ascii a) (N_of_ascii c)) as [Hac|Hac|Hac];
    try done; try lia.
  apply IH.
Qed.

Lemma str_le_trans (a b c : string) : str_le a b → str_le b c → str_le a c.
Proof.
  unfold str_le, String.leb. intros Hab Hbc.
  pose proof (string_compare_trans a b c) as Htrans.
  destruct (String.compare a b), (String.compare b c), (String.compare a c);
    try done; exfalso; by apply Htrans.
Qed.

Lemma str_le_total (a b : string) : str_le a b ∨ str_le b a.
Proof. apply String.leb_total. Qed.

Lemma category_values_spec (tags_data : list pydict) :
  ∃ cs : list string,
    category_values tags_data = Ok cs ∧
    ∀ c, c ∈ cs ↔ c ≠ "" ∧ ∃ d, d ∈ tags_data ∧ d !! "category" = Some c.
Proof.
  induction tags_data as [|d rest (cs & Hcs & Hin)].
  - exists []. split; [reflexivity|]. intros c. split.
    + by intros ?%elem_of_nil.
    + by intros [_ (d & ?%elem_of_nil & _)].
  - cbn [category_values].
    destruct (d !! "category") as [c0|] eqn:Hcat; cbn [default].
    + destruct (decide (c0 = "")) as [->|Hne].
      * rewrite bool_decide_eq_false_2 by (intros H; by apply H).
        exists cs. split; [exact Hcs|]. intros c. rewrite Hin. split.
        -- intros [Hc (d' & Hd' & Hcat')]. split; [done|]. exists d'.
           split; [by apply list_elem_of_further | done].
        -- intros [Hc (d' & [->|Hd']%elem_of_cons & Hcat')]; [congruence|].
           split; [done|]. by exists d'.
      * rewrite bool_decide_eq_true_2 by done.
        rewrite (getitem_Some _ _ _ Hcat), Hcs. cbn.
        exists (c0 :: cs). split; [reflexivity|]. intros c.
        rewrite elem_of_cons, Hin. split.
        -- intros [->|[Hc (d' & Hd' & Hcat')]].
           ++ split; [done|]. exists d. split; [apply list_elem_of_here | done].
           ++ split; [done|]. exists d'.
              split; [by apply list_elem_of_further | done].
        -- intros [Hc (d' & [->|Hd']%elem_of_cons & Hcat')].
           ++ left. congruence.
           ++ right. split; [done|]. by exists d'.
    + rewrite bool_decide_eq_false_2 by (intros H; by apply H).
      exists cs. split; [exact Hcs|]. intros c. rewrite Hin. split.
      * intros [Hc (d' & Hd' & Hcat')]. split; [done|]. exists d'.
        split; [by apply list_elem_of_further | done].
      * intros [Hc (d' & [->|Hd']%elem_of_cons & Hcat')]; [congruence|].
        split; [done|]. by exists d'.
Qed.

(** X19: for every list of records whose values are strings, whichever
    keys they carry, the list of categories in the sidebar is computed
    without an exception; it is sorted, holds no category twice, and holds
    exactly the non-empty categories that some record carries. *)
Theorem categories_sorted_distinct (tags_data : list pydict) :
  ∃ cs : list string,
    categories tags_data = Ok cs ∧
    StronglySorted str_le cs ∧
    NoDup cs ∧
    ∀ c, c ∈ cs ↔ c ≠ "" ∧ ∃ d, d ∈ tags_data ∧ d !! "category" = Some c.
Proof.
  destruct (category_values_spec tags_data) as (vals & Hvals & Hin).
  unfold categories. rewrite Hvals. cbn.
  eexists. split; [reflexivity|].
  pose proof (merge_sort_Permutation str_le
                (elements (list_to_set vals : gset string))) as Hperm.
  split; [|split].
  - apply StronglySorted_merge_sort.
    + intros a b c. apply str_le_trans.
    + intros a b. apply str_le_total.
  - rewrite Hperm. apply NoDup_elements.
  - intros c. rewrite Hperm, elem_of_elements, elem_of_list_to_set. apply Hin.
Qed.

Lemma size_list_to_set_le (l : list string) :
  (size (list_to_set l : gset string) ≤ length l)%nat.
Proof.
  induction l as [|x l IH]; [by rewrite list_to_set_nil, size_empty|].
  rewrite list_to_set_cons, size_union_alt, size_singleton. cbn [length].
  pose proof (subseteq_size (list_to_set l ∖ {[x]}) (list_to_set l : gset string)
                (subseteq_difference_l _ _ _ (reflexivity _))).
  lia.
Qed.

Lemma size_list_to_set_NoDup (l : list string) :
  size (list_to_set l : gset string) = length l → NoDup l.
Proof.
  induction l as [|x l IH]; intros Hsize; [constructor|].
  pose proof (size_list_to_set_le l) as Hle.
  rewrite list_to_set_cons, size_union_alt, size_singleton in Hsize.
  cbn [length] in Hsize.
  pose proof (subseteq_size (list_to_set l ∖ {[x]}) (list_to_set l : gset string)
                (subseteq_difference_l _ _ _ (reflexivity _))) as Hsub.
  apply NoDup_cons. split.
  - intros Hin.
    assert (size (list_to_set l ∖ {[x]} : gset string)
            < size (list_to_set l : gset string))%nat; [|lia].
    apply subset_size. split; [by apply subseteq_difference_l|].
    intros Hsup.
    assert (x ∈ (list_to_set l ∖ {[x]} : gset string)) as Hbad.
    { apply Hsup. by apply elem_of_list_to_set. }
    apply elem_of_difference in Hbad as [_ Hbad].
    apply Hbad. by apply elem_of_singleton.
  - apply IH. lia.
Qed.

(** X20: the number of duplicates the analysis reports is never negative,
    and it is zero exactly when no two of the tags read off the documents
    are the same, so the warning about duplicate entries is shown if and
    only if two tag documents carry the same tag. *)
Theorem duplicates_zero_iff (tag_docs : list string) :
  (0 ≤ duplicates tag_docs)%Z ∧
  (duplicates tag_docs = 0%Z ↔ NoDup tag_docs).
Proof.
  unfold duplicates. pose proof (size_list_to_set_le tag_docs) as Hle.
  split; [lia|]. split.
  - intros Hzero. apply size_list_to_set_NoDup. lia.
  - intros Hnd. rewrite size_list_to_set by done. lia.
Qed.

Lemma occurs_String (needle : string) (c : ascii) (s : string) :
  occurs needle s → occurs needle (String c s).
Proof.
  intros (before & after & ->). exists (String c before), after.
  by rewrite append_String.
Qed.

Lemma first_line_append (x rest : string) :
  ¬ occurs nl x → first_line (x +:+ nl +:+ rest) = x.
Proof.
  induction x as [|c x IH]; intros Hfree; [reflexivity|].
  rewrite append_String. cbn [first_line].
  destruct (Ascii.eqb c (ascii_of_nat 10)) eqn:Hc.
  - exfalso. apply Hfree. apply Ascii.eqb_eq in Hc as ->.
    by exists EmptyString, x.
  - rewrite IH; [reflexivity|]. intros Hocc. by apply Hfree, occurs_String.
Qed.

Lemma replace_from_absent (old new s : string) :
  ¬ occurs old s → replace_from old new 0 s = s.
Proof.
  induction s as [|c s IH]; intros Habs; [reflexivity|].
  cbn [replace_from].
  destruct (String.prefix old (String c s)) eqn:Hpre.
  - exfalso. apply Habs. apply prefix_append in Hpre as [rest Hrest].
    by exists EmptyString, rest.
  - rewrite IH; [reflexivity|]. intros Hocc. by apply Habs, occurs_String.
Qed.

Lemma replace_from_skip (old new p s : string) :
  replace_from old new (String.length p) (p +:+ s) = replace_from old new 0 s.
Proof.
  induction p as [|c p IH]; [reflexivity|].
  rewrite append_String. cbn [String.length replace_from]. exact IH.
Qed.

Lemma replace_from_head (c : ascii) (old' new s : string) :
  replace_from (String c old') new 0 (String c old' +:+ s)
  = new +:+ replace_from (String c old') new 0 s.
Proof.
  rewrite append_String. cbn [replace_from].
  rewrite <- append_String.
  rewrite (proj2 (prefix_append (String c old') (String c old' +:+ s)))
    by (by eexists).
  cbn [String.length]. rewrite Nat.sub_1_r. cbn [Nat.pred].
  by rewrite replace_from_skip.
Qed.

Lemma first_line_header (s : string) :
  first_line ("Tag: " +:+ s) = "Tag: " +:+ first_line s.
Proof. reflexivity. Qed.

Section Analysis.

Variable strip : string → string.

Lemma header_read_back (d : pydict) (name description : string) :
  d !! "tag" = Some name → d !! "description" = Some description →
  ¬ occurs nl name → ¬ occurs "Tag: " name → strip name = name →
  startswith (entry_text d) "Tag: " = true ∧
  strip (str_replace (first_line (entry_text d)) "Tag: " "") = name.
Proof.
  intros Hname Hdesc Hline Hmark Hstrip.
  assert (Hshape : ∃ rest, entry_text d = "Tag: " +:+ name +:+ nl +:+ rest).
  { unfold entry_text, dict_get. rewrite Hname. by eexists. }
  destruct Hshape as [rest ->]. split.
  - apply prefix_append. by eexists.
  - rewrite first_line_header, (first_line_append _ _ Hline).
    unfold str_replace. rewrite replace_from_head.
    rewrite (replace_from_absent _ _ _ Hmark). exact Hstrip.
Qed.

Lemma analyse_documents (records : list pydict) (tag_docs other_docs : list string) :
  Forall (plain_tag strip) records →
  analyse strip (entry_text <$> records) tag_docs other_docs
  = (tag_docs ++ omap tag_of records, other_docs).
Proof.
  revert tag_docs. induction records as [|d rest IH]; intros tag_docs Hall.
  - cbn. by rewrite app_nil_r.
  - apply Forall_cons_1 in Hall
      as [(name & desc & Hname & Hdesc & Hline & Hmark & Hstrip) Hrest].
    destruct (header_read_back d name desc Hname Hdesc Hline Hmark Hstrip)
      as [Hstart Hback].
    rewrite fmap_cons. cbn [analyse]. rewrite Hstart, Hback, (IH _ Hrest).
    cbn [omap list_omap]. change (tag_of d) with (d !! "tag"). rewrite Hname.
    by rewrite <- app_assoc.
Qed.

(** X21: the analysis reads back from the documents the tags they were
    formatted from: for records whose tag is a single line, free of the
    marker "Tag: " and of surrounding blanks, the documents that
    [format_entry] makes are all classified as tag documents and the tags
    listed are those of the records, in order. *)
Theorem analyse_reads_back_tags (records : list pydict) :
  Forall (plain_tag strip) records →
  ∃ documents : list string,
    mapM (λ d, match format_entry d with Ok doc => Some doc | Raise _ => None end)
      records = Some documents ∧
    analyse strip documents [] [] = (omap tag_of records, []).
Proof.
  intros Hall. exists (entry_text <$> records). split.
  - apply mapM_Some. apply Forall2_fmap_r, Forall_Forall2_diag.
    eapply Forall_impl; [exact Hall|].
    intros d (name & desc & Hname & Hdesc & _).
    rewrite format_entry_tag_record; [done | split; by eexists].
  - by rewrite (analyse_documents _ [] [] Hall).
Qed.

End Analysis.

Lemma analyse_reads_back_tags_witness :
  Forall (plain_tag ascii_strip) [record_of "foo" "d"; record_of "bar baz" ""] ∧
  ∃ documents : list string,
    mapM (λ d, match format_entry d with Ok doc => Some doc | Raise _ => None end)
      [record_of "foo" "d"; record_of "bar baz" ""] = Some documents ∧
    analyse ascii_strip documents [] [] = (["foo"; "bar baz"], []).
Proof.
  assert (Hall : Forall (plain_tag ascii_strip)
                   [record_of "foo" "d"; record_of "bar baz" ""]).
  { repeat constructor.
    - exists "foo", "d". repeat split; try reflexivity.
      + by intros H%contains_occurs.
      + by intros H%contains_occurs.
    - exists "bar baz", "". repeat split; try reflexivity.
      + by intros H%contains_occurs.
      + by intros H%contains_occurs. }
  split; [exact Hall|].
  exact (analyse_reads_back_tags ascii_strip _ Hall).
Defined.

(** ** Previews *)

Lemma length_append (s t : string) :
  String.length (s +:+ t) = (String.length s + String.length t)%nat.
Proof.
  induction s as [|c s IH]; [reflexivity|].
  rewrite append_String. cbn [String.length]. by rewrite IH.
Qed.

Lemma len_append (s t : string) : len (s +:+ t) = (len s + len t)%nat.
Proof.
  induction s as [|c s IH]; [reflexivity|].
  rewrite append_String. cbn [len]. rewrite IH. by destruct (is_continuation c).
Qed.

Lemma str_take_len (n : nat) (s : string) :
  len (str_take n s) = (n `min` len s)%nat.
Proof.
  revert n. induction s as [|c s IH]; intros n; [by destruct n|].
  cbn [str_take len]. destruct (is_continuation c) eqn:Hc.
  - cbn [len]. by rewrite Hc, IH.
  - destruct n as [|n]; [reflexivity|]. cbn [len]. by rewrite Hc, IH.
Qed.

(** A slice that leaves code points behind ends where the next one
    starts. *)
Lemma str_take_boundary (n : nat) (s : string) :
  (n < len s)%nat →
  ∃ (c : ascii) (rest : string),
    s = str_take n s +:+ String c rest ∧ is_continuation c = false.
Proof.
  revert n. induction s as [|c s IH]; intros n Hn; [cbn in Hn; lia|].
  cbn [str_take len] in *. destruct (is_continuation c) eqn:Hc.
  - destruct (IH n Hn) as (c' & rest & Hs & Hc'). exists c', rest.
    split; [|exact Hc']. by rewrite append_String, <- Hs.
  - destruct n as [|n]; [by exists c, s|].
    destruct (IH n ltac:(lia)) as (c' & rest & Hs & Hc'). exists c', rest.
    split; [|exact Hc']. by rewrite append_String, <- Hs.
Qed.

(** X22: the preview of a document shown in the sidebar is the document
    itself when it has at most [n] characters; otherwise it is the first
    [n] characters of the document followed by three dots, so it never has
    more than [n + 3] characters ([n] is 50 in the analysis and 100 in the
    list of entries).  Characters are code points, as [len] and the slice
    count them: the cut never falls inside the bytes of one. *)
Theorem preview_bounded (n : nat) (doc : string) :
  (len (preview n doc) ≤ n + 3)%nat ∧
  ((len doc ≤ n)%nat → preview n doc = doc) ∧
  ((n < len doc)%nat →
     len (preview n doc) = (n + 3)%nat ∧
     ∃ (c : ascii) (rest : string),
       doc = str_take n doc +:+ String c rest ∧
       is_continuation c = false ∧
       len (str_take n doc) = n ∧
       preview n doc = str_take n doc +:+ "...").
Proof.
  unfold preview. destruct (n <? len doc)%nat eqn:Hlong.
  - apply Nat.ltb_lt in Hlong.
    assert (Htake : len (str_take n doc) = n).
    { rewrite str_take_len. lia. }
    assert (Hlen : len (str_take n doc +:+ "...") = (n + 3)%nat).
    { rewrite len_append, Htake. reflexivity. }
    split; [lia|]. split; [lia|]. intros _. split; [exact Hlen|].
    destruct (str_take_boundary n doc Hlong) as (c & rest & Hdoc & Hc).
    exists c, rest. by repeat split.
  - apply Nat.ltb_ge in Hlong. split; [lia|]. split; [done | lia].
Qed.

Lemma preview_bounded_witness :
  (3 < len "тёплый день")%nat ∧ preview 3 "тёплый день" = "тёп...".
Proof.
  assert (H : (3 < len "тёплый день")%nat) by (vm_compute; lia).
  split; [exact H|].
  destruct (proj2 (proj2 (preview_bounded 3 "тёплый день")) H)
    as (_ & c & rest & _ & _ & _ & Hprev).
  rewrite Hprev. reflexivity.
Defined.

(** ** The page scraper *)

Lemma append_cancel_r (s1 s2 t : string) : s1 +:+ t = s2 +:+ t → s1 = s2.
Proof.
  revert s2. induction s1 as [|c s1 IH]; intros [|c2 s2] Heq.
  - reflexivity.
  - exfalso. apply (f_equal String.length) in Heq.
    rewrite !length_append in Heq. cbn [String.length] in Heq. lia.
  - exfalso. apply (f_equal String.length) in Heq.
    rewrite !length_append in Heq. cbn [String.length] in Heq. lia.
  - rewrite !append_String in Heq. injection Heq as -> Heq.
    by rewrite (IH _ Heq).
Qed.

Lemma page_file_inj (i j : nat) : page_file i = page_file j → i = j.
Proof.
  unfold page_file. intros Heq.
  apply (String.app_inj "pages_texts/page_") in Heq.
  apply append_cancel_r in Heq. by apply pretty_nat_inj in Heq.
Qed.

Section Scraper.

Variable get_page_text : string → option string.

(** The pages written by a run that starts at number [i]. *)
Lemma scrape_from_written (urls : list string) (i : nat)
    (files : gmap string string) :
  Forall (λ url, is_Some (get_page_text url)) urls →
  ∃ files' : gmap string string,
    scrape_from get_page_text i urls files = (files', true) ∧
    (∀ k url, urls !! k = Some url →
              files' !! page_file (i + k) = get_page_text url) ∧
    (∀ name, (∀ k, (k < length urls)%nat → name ≠ page_file (i + k)) →
             files' !! name = files !! name).
Proof.
  revert i files. induction urls as [|url rest IH]; intros i files Hall.
  - exists files. split; [reflexivity|]. split; [by intros k url ?|done].
  - apply Forall_cons_1 in Hall as [[text Htext] Hrest].
    destruct (IH (S i) (<[page_file i := text]> files) Hrest)
      as (files' & Hrun & Hwritten & Hother).
    exists files'. cbn [scrape_from]. rewrite Htext.
    split; [exact Hrun|]. split.
    + intros [|k] url' Hk.
      * cbn in Hk. injection Hk as <-. rewrite Nat.add_0_r, Hother.
        -- by rewrite lookup_insert_eq, Htext.
        -- intros k _ Heq%page_file_inj. lia.
      * cbn in Hk. rewrite <- (Hwritten k url' Hk). f_equal. f_equal. lia.
    + intros name Hname. rewrite Hother.
      * apply lookup_insert_ne. intros Heq. apply (Hname 0%nat); [cbn; lia|].
        by rewrite Nat.add_0_r.
      * intros k Hk. replace (S i + k)%nat with (i + S k)%nat by lia.
        apply Hname. cbn. lia.
Qed.

Lemma scrape_from_app (l1 l2 : list string) (i : nat) (files : gmap string string) :
  scrape_from get_page_text i (l1 ++ l2) files =
    match scrape_from get_page_text i l1 files with
    | (files', true) => scrape_from get_page_text (i + length l1) l2 files'
    | (files', false) => (files', false)
    end.
Proof.
  revert i files. induction l1 as [|url l1 IH]; intros i files.
  - cbn. by rewrite Nat.add_0_r.
  - cbn [app scrape_from length]. destruct (get_page_text url); [|reflexivity].
    rewrite IH. by replace (S i + length l1)%nat with (i + S (length l1))%nat by lia.
Qed.

(** X23: when every page can be fetched, the scraper writes one file per
    url, numbered from 1 in the order of the list: the [k]-th url (from 0)
    ends up in page_[k+1].txt, no page overwrites another page of the run,
    and no other file is touched. *)
Theorem scrape_writes_every_page (urls : list string) (files : gmap string string) :
  Forall (λ url, is_Some (get_page_text url)) urls →
  ∃ files' : gmap string string,
    scrape get_page_text urls files = (files', true) ∧
    (∀ k url, urls !! k = Some url →
              files' !! page_file (S k) = get_page_text url) ∧
    (∀ name, (∀ k, (k < length urls)%nat → name ≠ page_file (S k)) →
             files' !! name = files !! name) ∧
    (∀ j k, page_file j = page_file k → j = k).
Proof.
  intros Hall.
  destruct (scrape_from_written urls 1 files Hall)
    as (files' & Hrun & Hwritten & Hother).
  exists files'. split; [exact Hrun|]. split; [exact Hwritten|].
  split; [exact Hother | exact page_file_inj].
Qed.

(** X24: a page that cannot be fetched ends the scraper: the pages before
    it are written as in a complete run over them, and neither its file
    nor the file of any later page is written. *)
Theorem scrape_stops_at_failure (pre post : list string) (url : string)
    (files : gmap string string) :
  Forall (λ u, is_Some (get_page_text u)) pre →
  get_page_text url = None →
  ∃ files' : gmap string string,
    scrape get_page_text (pre ++ url :: post) files = (files', false) ∧
    scrape get_page_text pre files = (files', true) ∧
    (∀ k, (length pre ≤ k)%nat →
          files' !! page_file (S k) = files !! page_file (S k)).
Proof.
  intros Hpre Hurl.
  destruct (scrape_from_written pre 1 files Hpre)
    as (files' & Hrun & _ & Hother).
  exists files'. unfold scrape. rewrite scrape_from_app, Hrun.
  cbn [scrape_from]. rewrite Hurl.
  split; [reflexivity|]. split; [reflexivity|].
  intros k Hk. apply Hother. intros j Hj Heq%page_file_inj. lia.
Qed.

End Scraper.

Lemma scrape_writes_every_page_witness :
  ∃ files' : gmap string string,
    scrape (λ url, Some ("text of " +:+ url))
      (read_urls ascii_strip [" u1 "; ""; "u2"]) ∅ = (files', true) ∧
    files' !! page_file 2 = Some "text of u2".
Proof.
  assert (Hall : Forall (λ url, is_Some (Some ("text of " +:+ url)))
                   (read_urls ascii_strip [" u1 "; ""; "u2"])).
  { apply Forall_forall. intros url _. by eexists. }
  destruct (scrape_writes_every_page (λ url, Some ("text of " +:+ url))
              (read_urls ascii_strip [" u1 "; ""; "u2"]) ∅ Hall)
    as (files' & Hrun & Hwritten & _).
  exists files'. split; [exact Hrun|].
  exact (Hwritten 1%nat "u2" eq_refl).
Defined.

Lemma scrape_stops_at_failure_witness :
  ∃ files' : gmap string string,
    scrape (λ url, if decide (url = "bad") then None else Some url)
      (["a"] ++ "bad" :: ["c"]) ∅ = (files', false) ∧
    files' !! page_file 3 = None.
Proof.
  assert (Hpre : Forall (λ u, is_Some (if decide (u = "bad") then None else Some u))
                   ["a"]).
  { repeat constructor. by eexists. }
  destruct (scrape_stops_at_failure
              (λ url, if decide (url = "bad") then None else Some url)
              ["a"] ["c"] "bad" ∅ Hpre eq_refl)
    as (files' & Hrun & _ & Hlater).
  exists files'. split; [exact Hrun|].
  rewrite (Hlater 2%nat); [reflexivity | cbn; lia].
Defined.

(** ** The further theorems at concrete inputs *)

Lemma save_and_sync_in_step_witness :
  ∃ (out : Outcome) (w1 : World),
    save_and_sync (keyed_hash 0) ascii_strip true true "foo" " d " "" ""
      [record_of "foo" "old"; record_of "bar" ""] empty_world = (Ok out, w1) ∧
    said out = Some (Success "✅ Added tag 'foo' to ChromaDB") ∧
    (entries w1).*1 = [get_tag_id (keyed_hash 0) "foo"].
Proof.
  assert (Hall : Forall has_tag [record_of "foo" "old"; record_of "bar" ""]).
  { repeat constructor; by eexists. }
  destruct (save_and_sync_in_step (keyed_hash 0) ascii_strip "foo" " d " "" ""
              [record_of "foo" "old"; record_of "bar" ""] empty_world
              ltac:(discriminate) Hall eq_refl eq_refl)
    as (status & w1 & m & Hrun & _ & Hent & _).
  eexists _, w1. split; [exact Hrun|].
  vm_compute in Hrun. injection Hrun as <- _. split; [reflexivity|].
  rewrite Hent. reflexivity.
Defined.

Lemma save_and_sync_reports_success_witness :
  ∃ w1 : World,
    (save_and_sync (keyed_hash 0) ascii_strip true true "foo" "d" "" ""
       [] (mkWorld None [] [] [Some "down"] [])).1
    = Ok (mkOutcome [new_entry ascii_strip "foo" "d" "" ""]
            (Some (Success "✅ Error syncing tag 'foo': down")) true) ∧
    entries w1 = [].
Proof.
  destruct (save_and_sync_reports_success (keyed_hash 0) ascii_strip
              "foo" "d" "" "" [] (mkWorld None [] [] [Some "down"] [])
              ltac:(discriminate) (Forall_nil_2 _))
    as (status & w1 & Hrun & _ & Hfail).
  destruct (Hfail "down" (or_introl eq_refl)) as [-> Hent].
  exists w1. rewrite Hrun. split; [reflexivity | exact Hent].
Defined.

Lemma delete_handler_record_store_witness :
  ∃ (out : Outcome) (w1 : World),
    delete_handler (keyed_hash 0) false true "foo" "foo"
      [record_of "foo" "1"; record_of "bar" "2"; record_of "foo" "3"]
      empty_world = (Ok out, w1) ∧
    new_tags_data out = [record_of "bar" "2"].
Proof.
  assert (Hall : Forall has_tag
            [record_of "foo" "1"; record_of "bar" "2"; record_of "foo" "3"]).
  { repeat constructor; by eexists. }
  destruct (delete_handler_record_store (keyed_hash 0) false "foo" "foo" _
              empty_world ltac:(discriminate) ltac:(discriminate) Hall)
    as (out & w1 & Hrun & Hnew & _).
  exists out, w1. split; [exact Hrun|]. rewrite Hnew. reflexivity.
Defined.

Lemma delete_handler_reports_success_witness :
  ∃ (out : Outcome) (w1 : World),
    delete_handler (keyed_hash 0) true true "foo" "foo" [record_of "foo" "1"]
      (mkWorld None [(get_tag_id (keyed_hash 0) "foo", "doc")] []
         [Some "down"] [])
    = (Ok out, w1) ∧
    said out = Some (Success "✅ Deleted 'foo' from both JSON and ChromaDB") ∧
    new_tags_data out = [] ∧
    entries w1 = [(get_tag_id (keyed_hash 0) "foo", "doc")].
Proof.
  assert (Hall : Forall has_tag [record_of "foo" "1"]).
  { repeat constructor; by eexists. }
  destruct (delete_handler_reports_success (keyed_hash 0) "foo" "foo" _
              (mkWorld None [(get_tag_id (keyed_hash 0) "foo", "doc")] []
                 [Some "down"] [])
              ltac:(discriminate) ltac:(discriminate) Hall)
    as (out & w1 & Hrun & Hsaid & _ & _ & _ & Hfailed).
  destruct (Hfailed "down" eq_refl) as (Hent & _ & _).
  exists out, w1. split; [exact Hrun|]. split; [exact Hsaid|].
  split; [|exact Hent].
  vm_compute in Hrun. by injection Hrun as <- _.
Defined.

Lemma delete_acts_on_typed_name_witness :
  ∃ (out : Outcome) (w1 : World),
    delete_handler (keyed_hash 0) false true (ascii_strip " b ") "a"
      [record_of "a" "1"; record_of "b" "2"] empty_world = (Ok out, w1) ∧
    new_tags_data out = [record_of "a" "1"].
Proof.
  assert (Hall : Forall has_tag [record_of "a" "1"; record_of "b" "2"]).
  { repeat constructor; by eexists. }
  destruct (delete_acts_on_typed_name (keyed_hash 0) ascii_strip false " b " "a"
              _ empty_world ltac:(discriminate) ltac:(discriminate) Hall)
    as (tag_data & out & w1 & _ & Hrun & Hnew & _).
  exists out, w1. split; [exact Hrun|]. rewrite Hnew. reflexivity.
Defined.

Lemma sync_all_syncs_every_tag_witness :
  ∃ w1 : World,
    sync_all (keyed_hash 0) [record_of "a" "1"; record_of "b" "2"]
      (mkWorld None [("old", "X")] [] [] [])
    = (Ok (Success "✅ All tags synced!"), w1) ∧
    store_ids w1 =
      {["old"]} ∪ expected_ids (keyed_hash 0) [record_of "a" "1"; record_of "b" "2"].
Proof.
  assert (Hall : Forall is_tag_record [record_of "a" "1"; record_of "b" "2"]).
  { repeat constructor; by eexists. }
  assert (Hserved : always_served (mkWorld None [("old", "X")] [] [] [])).
  { intros n. unfold fate. cbn. by rewrite lookup_nil. }
  destruct (sync_all_syncs_every_tag (keyed_hash 0) _ _ Hall Hserved)
    as (w1 & m & Hrun & Hids & _).
  exists w1. split; [exact Hrun|]. rewrite Hids.
  unfold store_ids. cbn. by rewrite (right_id_L ∅ (∪)).
Defined.

Lemma sync_all_last_record_wins_witness :
  ∃ (n : notice) (w1 : World),
    sync_all (keyed_hash 0)
      ([record_of "a" "first"] ++ record_of "a" "second" :: [record_of "b" ""])
      empty_world = (Ok n, w1) ∧
    Forall (λ doc, doc = entry_text (record_of "a" "second"))
      (documents_of (get_tag_id (keyed_hash 0) "a") w1).
Proof.
  assert (Hall : Forall is_tag_record
            ([record_of "a" "first"] ++ record_of "a" "second" :: [record_of "b" ""])).
  { repeat constructor; by eexists. }
  assert (Hserved : always_served empty_world).
  { intros n. unfold fate. cbn. by rewrite lookup_nil. }
  assert (Hlast : get_tag_id (keyed_hash 0) "a"
                  ∉ get_tag_id (keyed_hash 0) <$> omap tag_of [record_of "b" ""]).
  { apply (bool_decide_unpack _). vm_compute. exact I. }
  destruct (sync_all_last_record_wins (keyed_hash 0) [record_of "a" "first"]
              [record_of "b" ""] (record_of "a" "second") "a" empty_world
              Hall Hserved eq_refl Hlast)
    as (n & w1 & Hrun & _ & Hdocs).
  exists n, w1. split; [exact Hrun | exact Hdocs].
Defined.

Lemma sync_all_skips_missing_description_witness :
  (sync_all_loop (keyed_hash 0) [<["tag" := "b"]> ∅; record_of "c" "3"]
     empty_world).1 = Ok tt ∧
  shown (sync_all_loop (keyed_hash 0) [<["tag" := "b"]> ∅; record_of "c" "3"]
           empty_world).2 = ["Failed to sync b: 'description'"].
Proof.
  assert (Htag : (<["tag" := "b"]> ∅ : pydict) !! "tag" = Some "b")
    by reflexivity.
  assert (Hdesc : (<["tag" := "b"]> ∅ : pydict) !! "description" = None)
    by reflexivity.
  rewrite (sync_all_skips_missing_description (keyed_hash 0) (<["tag" := "b"]> ∅)
             "b" [record_of "c" "3"] empty_world Htag Hdesc).
  split; reflexivity.
Defined.

Lemma sync_all_hides_failures_witness :
  Forall is_tag_record [record_of "a" "1"; record_of "b" "2"] ∧
  (∀ n, (n < length [record_of "a" "1"; record_of "b" "2"])%nat →
        is_Some (fate n (mkWorld None [("x", "X")] []
                           [Some "down"; Some "down"] []))) ∧
  ∃ w1 : World,
    sync_all (keyed_hash 0) [record_of "a" "1"; record_of "b" "2"]
      (mkWorld None [("x", "X")] [] [Some "down"; Some "down"] [])
    = (Ok (Success "✅ All tags synced!"), w1) ∧
    shown w1 = [] ∧
    entries w1 = [("x", "X")] ∧
    calls w1 = [CallGet (Some [get_tag_id (keyed_hash 0) "a"]);
                CallGet (Some [get_tag_id (keyed_hash 0) "b"])].
Proof.
  assert (Hall : Forall is_tag_record [record_of "a" "1"; record_of "b" "2"]).
  { repeat constructor; by eexists. }
  assert (Hdown : ∀ n, (n < length [record_of "a" "1"; record_of "b" "2"])%nat →
                       is_Some (fate n (mkWorld None [("x", "X")] []
                                          [Some "down"; Some "down"] []))).
  { intros [|[|n]] Hn; [by eexists | by eexists | cbn in Hn; lia]. }
  split; [exact Hall|]. split; [exact Hdown|].
  destruct (sync_all_hides_failures (keyed_hash 0) _
              (mkWorld None [("x", "X")] [] [Some "down"; Some "down"] []) Hall)
    as (w1 & Hrun & Hshown & Hfail).
  destruct (Hfail Hdown) as [Hent Hcalls].
  exists w1. split; [exact Hrun|]. split; [exact Hshown|].
  split; [exact Hent | exact Hcalls].
Defined.

Lemma sync_all_then_clean_repairs_witness :
  ∃ (n : notice) (w1 : World) (status : string) (w2 : World),
    sync_all (keyed_hash 0) [record_of "a" "1"]
      (mkWorld None [("orphan", "X")] [] [] []) = (Ok n, w1) ∧
    clean_orphaned_chroma_entries (keyed_hash 0) true [record_of "a" "1"] w1
    = (Ok status, w2) ∧
    store_ids w2 = {[get_tag_id (keyed_hash 0) "a"]}.
Proof.
  assert (Hall : Forall is_tag_record [record_of "a" "1"]).
  { repeat constructor; by eexists. }
  assert (Hserved : always_served (mkWorld None [("orphan", "X")] [] [] [])).
  { intros n. unfold fate. cbn. by rewrite lookup_nil. }
  destruct (sync_all_then_clean_repairs (keyed_hash 0) _ _ Hall Hserved)
    as (n & w1 & status & w2 & Hrun & Hclean & Hids & _).
  exists n, w1, status, w2. split; [exact Hrun|]. split; [exact Hclean|].
  rewrite Hids. vm_compute. reflexivity.
Defined.

Lemma sync_then_remove_witness :
  ∃ (status1 : string) (w1 : World) (status2 : string) (w2 : World),
    sync_tag_to_chroma (keyed_hash 0) (record_of "foo" "d")
      (mkWorld None [("other", "X")] [] [] []) = (Ok status1, w1) ∧
    remove_tag_from_chroma (keyed_hash 0) "foo" w1 = (Ok status2, w2) ∧
    entries w2 = [("other", "X")].
Proof.
  destruct (sync_then_remove (keyed_hash 0) (record_of "foo" "d") "foo" "d"
              (mkWorld None [("other", "X")] [] [] [])
              eq_refl eq_refl eq_refl eq_refl eq_refl)
    as (status1 & w1 & status2 & w2 & Hrun1 & Hrun2 & Hent & _).
  exists status1, w1, status2, w2. split; [exact Hrun1|]. split; [exact Hrun2|].
  rewrite Hent. vm_compute. reflexivity.
Defined.

Lemma save_handler_twice_witness :
  ∃ (saved : list pydict) (w1 w2 : World),
    save_handler ascii_strip true "foo" "d" "" "" [record_of "foo" "old"]
      empty_world = (Ok saved, w1) ∧
    save_handler ascii_strip true "foo" "d" "" "" saved w1 = (Ok saved, w2) ∧
    length saved = 1%nat.
Proof.
  assert (Hall : Forall has_tag [record_of "foo" "old"]).
  { repeat constructor; by eexists. }
  destruct (save_handler_twice ascii_strip "foo" "d" "" "" _ empty_world
              ltac:(discriminate) Hall)
    as (saved & w1 & w2 & Hrun1 & Hrun2 & _).
  exists saved, w1, w2. split; [exact Hrun1|]. split; [exact Hrun2|].
  vm_compute in Hrun1. by injection Hrun1 as <- _.
Defined.

Lemma save_then_delete_restores_witness :
  ∃ (saved : list pydict) (w1 : World) (out : Outcome) (w2 : World),
    save_handler ascii_strip true "new" "d" "" "" [record_of "a" "1"]
      empty_world = (Ok saved, w1) ∧
    delete_handler (keyed_hash 0) false true "new" "new" saved w1 = (Ok out, w2) ∧
    new_tags_data out = [record_of "a" "1"].
Proof.
  assert (Hall : Forall has_tag [record_of "a" "1"]).
  { repeat constructor; by eexists. }
  assert (Hnew : "new" ∉ omap tag_of [record_of "a" "1"]).
  { apply (bool_decide_unpack _). vm_compute. exact I. }
  destruct (save_then_delete_restores (keyed_hash 0) ascii_strip false
              "new" "new" "d" "" "" _ empty_world
              ltac:(discriminate) ltac:(discriminate) Hall Hnew)
    as (saved & w1 & out & w2 & Hrun1 & Hrun2 & Hback & _).
  exists saved, w1, out, w2. by repeat split.
Defined.
